(** * Size-constrained image re-encoding: [automacoes/imagens/shrink_to_size.py]

    A shallow embedding of the compression pipeline of [shrink_to_size.py]
    ([ajustar_img.py] holds the same functions, comments removed):
    [ensure_mode_for_format], [bytes_of_save], [binary_search_quality],
    [scale_by_factor] and [compress_to_target].

    The program is a client of Pillow and of Python's [float]s.  What the
    functions do themselves (branching on modes and formats, the keyword
    dictionaries, the search loops, integer arithmetic) is written out; the
    pixel kernels of Pillow (mode conversion, resampling, the codecs) and the
    rounding of floating-point operations are operations of the interfaces
    [Pillow] and [Floats] below. *)

From Stdlib Require Import ZArith QArith Lia List String Ascii.
From Stdlib.Strings Require Import Byte.
From stdpp Require Import gmap strings list.

Close Scope Q_scope.
Open Scope string_scope.
Open Scope Z_scope.

(** ** Python values, exceptions and strings *)

Module Py.

(** Values stored in a keyword dictionary ([**save_kwargs]). *)
Inductive pyval : Type :=
| VBool (b : bool)
| VInt (z : Z)
| VStr (s : string).

(** The exceptions the program can end in: those of its arithmetic, the
    [TypeError] of a call that binds a parameter twice, and what the encoder
    raises ([KeyError] for a format without a writer, [OSError] for an image
    or an option the writer refuses). *)
Inductive exn : Type :=
| ValueError
| ZeroDivisionError
| TypeError
| KeyError
| OSError.

(** The result of running a function: a value, a raised exception, or
    [OutOfFuel] when the bound given to a [while] loop of the model was too
    small (the theorems show that the bound used is large enough). *)
Inductive result (A : Type) : Type :=
| Ok (a : A)
| Raise (e : exn)
| OutOfFuel.
Arguments Ok {A} a.
Arguments Raise {A} e.
Arguments OutOfFuel {A}.

#[global] Instance result_bind : MBind result := fun A B k r =>
  match r with
  | Ok a => k a
  | Raise e => Raise e
  | OutOfFuel => OutOfFuel
  end.

(** [str.upper] on the ASCII letters; format identifiers are ASCII, every
    other character is left as it is. *)
Definition upper_ascii (c : ascii) : ascii :=
  let n := N_of_ascii c in
  if ((97 <=? n) && (n <=? 122))%N then ascii_of_N (n - 32) else c.

Fixpoint upper (s : string) : string :=
  match s with
  | EmptyString => EmptyString
  | String c s' => String (upper_ascii c) (upper s')
  end.

(** [x in (a, b, ...)] on strings. *)
Definition str_in (x : string) (l : list string) : bool :=
  existsb (String.eqb x) l.

(** [d.setdefault(k, v)]: the entry is added only when the key is absent. *)
Definition setdefault (k : string) (v : pyval) (d : gmap string pyval)
  : gmap string pyval :=
  match d !! k with
  | Some _ => d
  | None => <[k := v]> d
  end.

(** A call [f(..., **kwargs)] binds a parameter twice, and raises
    [TypeError], when [kwargs] holds a key naming one of the parameters
    [params] the call binds itself. *)
Definition collides (params : list string) (kwargs : gmap string pyval)
  : bool :=
  existsb (fun p => match kwargs !! p with Some _ => true | None => false end)
    params.

(** The integer [range(v)] counts to: a [bool] is an integer, a string is a
    [TypeError]. *)
Definition as_count (v : pyval) : result Z :=
  match v with
  | VInt n => Ok n
  | VBool b => Ok (if b then 1 else 0)
  | VStr _ => Raise TypeError
  end.

(** [len(data)] as a Python integer. *)
Definition len {A} (l : list A) : Z := Z.of_nat (length l).

(** [int(x)] on a float: truncation towards zero. *)
Definition py_int (x : Q) : Z := Z.quot (Qnum x) (Z.pos (Qden x)).

End Py.

Import Py.

(** ** Floating point

    A Python [float] is a binary64 number, modelled by the rational it
    denotes.  An arithmetic operation returns the rounding [rnd] of its exact
    result; [fsqrt] is the (rounded) square root on non-negative arguments. *)

Class Floats := {
  rnd : Q -> Q;
  fsqrt : Q -> Q;
}.

(** What the development uses of IEEE rounding: it is monotone, and integers
    up to [2^53] are floats. *)
Record FloatLaws `{Floats} : Prop := {
  rnd_mono : forall x y : Q, (x <= y)%Q -> (rnd x <= rnd y)%Q;
  rnd_int : forall z : Z, Z.abs z <= 2 ^ 53 -> (rnd (inject_Z z) == inject_Z z)%Q;
}.

Section FloatOps.
Context `{Floats}.

(** [a * x] for an integer [a] and a float [x]. *)
Definition int_times_float (a : Z) (x : Q) : Q := rnd (inject_Z a * x)%Q.

Definition fmul (x y : Q) : Q := rnd (x * y)%Q.

(** [a / b]: true division of integers ([b] may be [float(b)]). *)
Definition truediv (a b : Z) : result Q :=
  if b =? 0 then Raise ZeroDivisionError
  else Ok (rnd (inject_Z a / inject_Z b)%Q).

(** [math.sqrt]: a negative argument is a "math domain error". *)
Definition math_sqrt (x : Q) : result Q :=
  if Qle_bool 0 x then Ok (fsqrt x) else Raise ValueError.

(** [min] and [max] of two floats: Python returns the first argument unless
    the second is strictly smaller (larger). *)
Definition fmin (x y : Q) : Q := if Qle_bool x y then x else y.
Definition fmax (x y : Q) : Q := if Qle_bool y x then x else y.

End FloatOps.

(** ** Pillow: [PIL.Image]

    An image is its mode, its size, the keys of its [info] dictionary and its
    pixels in row-major order, one sample per band.  Construction, band
    splitting and masked pasting are written out (the blend is the 8-bit matte
    arithmetic of Pillow's paste); converting pixels between modes, resampling
    and the codecs are operations of the class [Pillow].  The exceptions of
    the encoder are given by [save_error]; conversion, pasting and resampling
    are total. *)

Module Image.

(** A pixel: one sample per band. *)
Abbreviation pixel := (list Z) (only parsing).

Record Image : Type := mkImage {
  mode : string;
  size : Z * Z;
  info : gset string;
  data : list pixel;
}.

Definition width (img : Image) : Z := fst (size img).
Definition height (img : Image) : Z := snd (size img).

(** The sizes Pillow can hold: at least one pixel each way, and a C [int]. *)
Definition valid_size (img : Image) : Prop :=
  1 <= width img < 2 ^ 31 /\ 1 <= height img < 2 ^ 31.

Class Pillow := {
  (** pixels and [info] keys of [img.convert(mode)] *)
  convert_data : Image -> string -> list pixel;
  convert_info : Image -> string -> gset string;
  (** pixels of [img.resize(size, Image.LANCZOS)] *)
  resample : Image -> Z * Z -> list pixel;
  (** the bytes [img.save(buf, format=..., **kwargs)] writes to [buf] *)
  save : Image -> string -> gmap string pyval -> list byte;
  (** the exception that call raises, if it raises one *)
  save_error : Image -> string -> gmap string pyval -> option exn;
  (** the keys of the registry [Image.SAVE] (identifiers of the writers) *)
  SAVE : gset string;
}.

(** [Image.getmodebands]: the names of the bands of each mode. *)
Definition MODES : list (string * list string) :=
  [ ("1", ["1"]); ("L", ["L"]); ("I", ["I"]); ("F", ["F"]); ("P", ["P"]);
    ("RGB", ["R"; "G"; "B"]); ("RGBX", ["R"; "G"; "B"; "X"]);
    ("RGBA", ["R"; "G"; "B"; "A"]); ("CMYK", ["C"; "M"; "Y"; "K"]);
    ("YCbCr", ["Y"; "Cb"; "Cr"]); ("LAB", ["L"; "A"; "B"]);
    ("HSV", ["H"; "S"; "V"]); ("LA", ["L"; "A"]); ("PA", ["P"; "A"]);
    ("RGBa", ["R"; "G"; "B"; "a"]); ("La", ["L"; "a"]) ].

Fixpoint assoc {A} (k : string) (l : list (string * A)) : option A :=
  match l with
  | [] => None
  | (k', v) :: l' => if (k =? k')%string then Some v else assoc k l'
  end.

Definition getbands (img : Image) : list string :=
  match assoc (mode img) MODES with
  | Some bands => bands
  | None => []
  end.

(** [Image.new(mode, size, color)] *)
Definition new (mode : string) (size : Z * Z) (color : pixel) : Image :=
  {| mode := mode; size := size; info := ∅;
     data := replicate (Z.to_nat (fst size) * Z.to_nat (snd size)) color |}.

(** [img.split()]: one single-band image per band. *)
Definition getband (img : Image) (k : nat) : Image :=
  {| mode := "L"; size := size img; info := info img;
     data := map (fun px : pixel => [nth k px 0]) (data img) |}.

Definition split (img : Image) : list Image :=
  match getbands img with
  | [_] => [img]
  | bands => map (getband img) (seq 0 (length bands))
  end.

(** Pillow's rounded division by 255 and 8-bit blend. *)
Definition DIV255 (a : Z) : Z :=
  let tmp := a + 128 in Z.shiftr (Z.shiftr tmp 8 + tmp) 8.

Definition BLEND8 (mask in1 in2 : Z) : Z :=
  DIV255 (in1 * (255 - mask) + in2 * mask).

Definition paste_pixel (out inp mask : pixel) : pixel :=
  let a := nth 0%nat mask 0 in
  zip_with (BLEND8 a) out inp.

(** [bg.paste(im, mask=mask)] over the whole of [bg] (the three images have
    one size): the value is [bg] after the call. *)
Definition paste (bg im mask : Image) : Image :=
  {| mode := mode bg; size := size bg; info := info bg;
     data := zip_with (fun out '(inp, m) => paste_pixel out inp m)
               (data bg) (zip (data im) (data mask)) |}.

Section Methods.
Context `{Pillow}.

(** [img.convert(mode)]: a copy when the mode is already [mode]. *)
Definition convert (img : Image) (m : string) : Image :=
  if (mode img =? m)%string then img
  else {| mode := m; size := size img; info := convert_info img m;
          data := convert_data img m |}.

(** [img.resize(size, Image.LANCZOS)] *)
Definition resize (img : Image) (sz : Z * Z) : Image :=
  {| mode := mode img; size := sz; info := info img; data := resample img sz |}.

End Methods.

End Image.

Import Image.

(** ** The functions of [shrink_to_size.py]

    [compress_to_target] takes the image [Image.open(input_path)] returned in
    place of the path, and its value holds the bytes written to [output_path]
    together with the tuple the function returns.

    [bytes_of_save], [binary_search_quality] and the functions on images give
    what the code computes when no call raises; [bytes_of_save_run],
    [binary_search_quality_run] and [call_binary_search_quality] are the same
    calls with their exceptions, and [compress_to_target] is built on them.
    A key of [save_kwargs] that names a parameter of the function it is
    passed to directly cannot occur (Python binds it to that parameter). *)

Section ShrinkToSize.
Context `{Pillow, Floats}.

Definition load_image (opened : Image) : Image :=
  if (mode opened =? "P")%string then convert opened "RGBA" else opened.

Definition ensure_mode_for_format (img : Image) (fmt : string) : Image :=
  let fmt := upper fmt in
  if str_in fmt ["JPEG"; "JPG"] then
    if str_in (mode img) ["RGBA"; "LA"]
       || ((mode img =? "P")%string && bool_decide ("transparency" ∈ info img))
    then
      let bg := new "RGB" (size img) [255; 255; 255] in
      let img := if negb (mode img =? "RGBA")%string
                 then convert img "RGBA" else img in
      paste bg img (List.last (split img) img)
    else if negb (str_in (mode img) ["RGB"]) then convert img "RGB"
    else img
  else if (fmt =? "WEBP")%string then img
  else
    if negb (str_in (mode img) ["RGB"; "RGBA"])
    then convert img (if str_in "A" (getbands img) then "RGBA" else "RGB")
    else img.

(** The format and the keyword dictionary [bytes_of_save] hands to
    [img.save]. *)
Definition save_call (fmt : string) (quality : Z)
    (save_kwargs : gmap string pyval) : string * gmap string pyval :=
  let kwargs := save_kwargs in
  let fmt_u := upper fmt in
  if str_in fmt_u ["JPEG"; "JPG"] then
    let kwargs := setdefault "optimize" (VBool true) kwargs in
    let kwargs := setdefault "quality" (VInt quality) kwargs in
    let kwargs := setdefault "progressive" (VBool true) kwargs in
    ("JPEG", kwargs)
  else if (fmt_u =? "WEBP")%string then
    let kwargs := setdefault "quality" (VInt quality) kwargs in
    let kwargs := setdefault "method" (VInt 6) kwargs in
    let kwargs := setdefault "lossless" (VBool false) kwargs in
    ("WEBP", kwargs)
  else
    let kwargs := if bool_decide ("quality" ∈ SAVE)
                  then setdefault "quality" (VInt quality) kwargs
                  else kwargs in
    (fmt_u, kwargs).

Definition bytes_of_save (img : Image) (fmt : string) (quality : Z)
    (save_kwargs : gmap string pyval) : list byte :=
  let '(format, kwargs) := save_call fmt quality save_kwargs in
  save img format kwargs.

(** The call [bytes_of_save(img, fmt, quality=quality, **save_kwargs)] as the
    other functions make it, with the exceptions it can end in: a key of
    [save_kwargs] naming a parameter of [bytes_of_save], or a key of [kwargs]
    naming one of [img.save], is bound twice; an exception of the encoder is
    passed on. *)
Definition bytes_of_save_run (img : Image) (fmt : string) (quality : Z)
    (save_kwargs : gmap string pyval) : result (list byte) :=
  if collides ["img"; "fmt"; "quality"] save_kwargs then Raise TypeError
  else
    let '(format, kwargs) := save_call fmt quality save_kwargs in
    if collides ["self"; "fp"; "format"] kwargs then Raise TypeError
    else
      match save_error img format kwargs with
      | Some e => Raise e
      | None => Ok (save img format kwargs)
      end.

(** The variables of the loop of [binary_search_quality]; [probed] is a ghost
    field listing the qualities encoded so far, latest first. *)
Record search_state : Type := {
  best : option (list byte * Z);
  lo : Z;
  hi : Z;
  probed : list Z;
}.

Section Search.
Variables (img : Image) (fmt : string) (target_bytes : Z).
Variables (q_min q_max : Z) (save_kwargs : gmap string pyval).

(** One iteration of [for _ in range(max_iters)]. *)
Definition search_step (s : search_state) : search_state :=
  let mid := (lo s + hi s) / 2 in
  let data := bytes_of_save img fmt mid save_kwargs in
  let size := len data in
  if size <=? target_bytes then
    {| best := Some (data, mid); lo := mid + 1; hi := hi s;
       probed := mid :: probed s |}
  else
    {| best := best s; lo := lo s; hi := mid - 1; probed := mid :: probed s |}.

Fixpoint search_loop (iters : nat) (s : search_state) : search_state :=
  match iters with
  | O => s
  | S iters' => search_loop iters' (search_step s)
  end.

Definition search_init : search_state :=
  {| best := None; lo := q_min; hi := q_max; probed := [] |}.

(** What follows the loop: [None] is the pair [(None, None)]. *)
Definition search_finish (s : search_state) : option (list byte * Z) :=
  match best s with
  | None =>
      let data := bytes_of_save img fmt q_min save_kwargs in
      if len data <=? target_bytes then Some (data, q_min) else None
  | Some b => Some b
  end.

Definition binary_search_quality (max_iters : Z) : option (list byte * Z) :=
  search_finish (search_loop (Z.to_nat max_iters) search_init).

(** The qualities the loop of [binary_search_quality] encodes, in order. *)
Definition search_probes (max_iters : Z) : list Z :=
  rev (probed (search_loop (Z.to_nat max_iters) search_init)).

(** The variant of the specification: the loop is left as soon as
    [lo > hi]. *)
Fixpoint search_loop_early_exit (iters : nat) (s : search_state)
  : search_state :=
  match iters with
  | O => s
  | S iters' =>
      if lo s >? hi s then s
      else search_loop_early_exit iters' (search_step s)
  end.

Definition binary_search_quality_early_exit (max_iters : Z)
  : option (list byte * Z) :=
  search_finish (search_loop_early_exit (Z.to_nat max_iters) search_init).

(** The search with its exceptions: an iteration ends in the exception of
    its encoding, if there is one, and is [search_step] otherwise; likewise
    the probe that follows the loop. *)
Definition search_step_run (s : search_state) : result search_state :=
  data ← bytes_of_save_run img fmt ((lo s + hi s) / 2) save_kwargs;
  Ok (search_step s).

Fixpoint search_loop_run (iters : nat) (s : search_state)
  : result search_state :=
  match iters with
  | O => Ok s
  | S iters' => s' ← search_step_run s; search_loop_run iters' s'
  end.

Definition search_finish_run (s : search_state)
  : result (option (list byte * Z)) :=
  match best s with
  | None =>
      data ← bytes_of_save_run img fmt q_min save_kwargs;
      Ok (search_finish s)
  | Some b => Ok (Some b)
  end.

Definition binary_search_quality_run (max_iters : Z)
  : result (option (list byte * Z)) :=
  s ← search_loop_run (Z.to_nat max_iters) search_init;
  search_finish_run s.

End Search.

(** The default of the parameter [max_iters] of [binary_search_quality]. *)
Definition default_max_iters : Z := 8.

(** The call [binary_search_quality(img, fmt, target_bytes, q_min=q_min,
    q_max=q_max, **save_kwargs)] of [compress_to_target]: a key naming one
    of these parameters is bound twice, and a key [max_iters] is bound to
    the parameter of that name instead of reaching the encoder. *)
Definition call_binary_search_quality (img : Image) (fmt : string)
    (target_bytes q_min q_max : Z) (save_kwargs : gmap string pyval)
  : result (option (list byte * Z)) :=
  if collides ["img"; "fmt"; "target_bytes"; "q_min"; "q_max"] save_kwargs
  then Raise TypeError
  else
    match save_kwargs !! "max_iters" with
    | None =>
        binary_search_quality_run img fmt target_bytes q_min q_max
          save_kwargs default_max_iters
    | Some v =>
        max_iters ← as_count v;
        binary_search_quality_run img fmt target_bytes q_min q_max
          (delete "max_iters" save_kwargs) max_iters
    end.

Definition scale_by_factor (img : Image) (factor : Q) : Image :=
  let '(w, h) := size img in
  let new_w := Z.max 1 (py_int (int_times_float w factor)) in
  let new_h := Z.max 1 (py_int (int_times_float h factor)) in
  let '(new_w, new_h) :=
    if (new_w =? w) && (new_h =? h)
    then (Z.max 1 (w - 1), Z.max 1 (h - 1))
    else (new_w, new_h) in
  resize img (new_w, new_h).

(** The tuple [compress_to_target] returns (the path apart) and the bytes it
    passed to [output_path.write_bytes]. *)
Record outcome : Type := {
  written : list byte;
  size_kb : Z;
  final_size : Z * Z;
  quality_used : Z;
}.

(** The variables of the [while] loop of [compress_to_target]. *)
Record backoff_state : Type := {
  passes : Z;
  cur_img : Image;
  data_low : list byte;
  current_bytes : Z;
}.

Section Compress.
Variables (fmt : string) (target_bytes : Z).
Variables (quality_min quality_max max_passes : Z).
Variable save_kwargs : gmap string pyval.

(** [sqrt(target_bytes / current_bytes) * 0.98], then [min(factor, 0.95)]
    and [max(factor, 0.5)]. *)
Definition backoff_factor (current_bytes : Z) : result Q :=
  ratio ← truediv target_bytes current_bytes;
  root ← math_sqrt ratio;
  let factor := fmul root (rnd (98 # 100)) in
  let factor := fmin factor (rnd (95 # 100)) in
  let factor := fmax factor (rnd (1 # 2)) in
  Ok factor.

(** The loop, from the state [st], with at most [fuel] passes.  Its value is
    the returned tuple and the number of times the body was entered. *)
Fixpoint backoff_loop (fuel : nat) (st : backoff_state)
  : result (outcome * Z) :=
  if (current_bytes st >? target_bytes) && (passes st <? max_passes) then
    match fuel with
    | O => OutOfFuel
    | S fuel' =>
        factor ← backoff_factor (current_bytes st);
        let cur_img := scale_by_factor (cur_img st) factor in
        found ← call_binary_search_quality cur_img fmt target_bytes
                  quality_min quality_max save_kwargs;
        match found with
        | Some (data_quality, q_used) =>
            Ok ({| written := data_quality;
                   size_kb := len data_quality / 1024;
                   final_size := size cur_img;
                   quality_used := q_used |}, passes st + 1)
        | None =>
            data_low ← bytes_of_save_run cur_img fmt quality_min save_kwargs;
            backoff_loop fuel'
              {| passes := passes st + 1; cur_img := cur_img;
                 data_low := data_low; current_bytes := len data_low |}
        end
    end
  else
    Ok ({| written := data_low st;
           size_kb := len (data_low st) / 1024;
           final_size := size (cur_img st);
           quality_used := quality_min |}, passes st).

End Compress.

(** [compress_to_target], with the number of passes of the backoff loop
    beside the returned tuple. *)
Definition compress_to_target_passes (opened : Image) (target_kb : Z)
    (fmt : string) (max_width : option Z)
    (quality_min quality_max max_passes : Z)
    (save_kwargs : gmap string pyval) : result (outcome * Z) :=
  let img := load_image opened in
  let fmt := upper fmt in
  let img := ensure_mode_for_format img fmt in
  img ← match max_width with
        | Some max_width =>
            if width img >? max_width then
              factor ← truediv max_width (width img);
              Ok (scale_by_factor img factor)
            else Ok img
        | None => Ok img
        end;
  let target_bytes := target_kb * 1024 in
  found ← call_binary_search_quality img fmt target_bytes
            quality_min quality_max save_kwargs;
  match found with
  | Some (data_quality, q_used) =>
      Ok ({| written := data_quality;
             size_kb := len data_quality / 1024;
             final_size := size img;
             quality_used := q_used |}, 0)
  | None =>
      data_low ← bytes_of_save_run img fmt quality_min save_kwargs;
      let current_bytes := len data_low in
      backoff_loop fmt target_bytes quality_min quality_max max_passes
        save_kwargs (Z.to_nat max_passes)
        {| passes := 0; cur_img := img; data_low := data_low;
           current_bytes := current_bytes |}
  end.

Definition compress_to_target (opened : Image) (target_kb : Z)
    (fmt : string) (max_width : option Z)
    (quality_min quality_max max_passes : Z)
    (save_kwargs : gmap string pyval) : result outcome :=
  r ← compress_to_target_passes opened target_kb fmt max_width
        quality_min quality_max max_passes save_kwargs;
  Ok (fst r).

End ShrinkToSize.

(** ** A small codec for concrete runs

    A stand-in for Pillow and for binary64 arithmetic on which the functions
    can be evaluated: the encoder writes one header byte and [quality] bytes
    per pixel, so its output grows with the quality and with the image, and
    it raises [KeyError] for a format without a registered writer;
    arithmetic is exact; the square root is taken to 32 binary digits. *)

Module Demo.

Definition quality_of (kwargs : gmap string pyval) : Z :=
  match kwargs !! "quality" with
  | Some (VInt q) => q
  | _ => 75
  end.

Definition encode (img : Image) (format : string) (kwargs : gmap string pyval)
  : list byte :=
  x00 :: replicate (Z.to_nat (width img * height img * quality_of kwargs)) x2a.

Definition convert_pixel (m : string) (px : pixel) : pixel :=
  if (m =? "RGBA")%string then
    match px with
    | [l] => [l; l; l; 255]
    | [l; a] => [l; l; l; a]
    | [r; g; b] => [r; g; b; 255]
    | _ => px
    end
  else if (m =? "RGB")%string then
    match px with
    | [l] => [l; l; l]
    | [l; a] => [l; l; l]
    | [r; g; b; a] => [r; g; b]
    | _ => px
    end
  else px.

(** The writers a stock Pillow registers. *)
Definition registry : gset string :=
  {[ "BMP"; "GIF"; "ICO"; "JPEG"; "JPEG2000"; "MPO"; "PNG"; "PPM"; "TGA";
     "TIFF"; "WEBP" ]}.

#[local] Instance pillow : Pillow := {|
  convert_data img m := map (convert_pixel m) (data img);
  convert_info img m := info img;
  resample img sz :=
    replicate (Z.to_nat (fst sz) * Z.to_nat (snd sz)) (hd [] (data img));
  save := encode;
  save_error img format kwargs :=
    if bool_decide (format ∈ registry) then None else Some KeyError;
  SAVE := registry;
|}.

#[local] Instance floats : Floats := {|
  rnd x := x;
  fsqrt x := (Z.sqrt (Qnum x * 2 ^ 64 / Z.pos (Qden x)) # 2 ^ 32)%Q;
|}.

(** A [w] by [h] image of one colour. *)
Definition plain (m : string) (w h : Z) (px : pixel) : Image :=
  {| mode := m; size := (w, h); info := ∅;
     data := replicate (Z.to_nat w * Z.to_nat h) px |}.

Definition tile : Image := plain "RGB" 10 10 [200; 120; 40].
Definition card : Image := plain "RGB" 15 15 [200; 120; 40].
Definition poster : Image := plain "RGB" 40 40 [200; 120; 40].

(** Two pixels of one colour, the first fully transparent, the second fully
    opaque. *)
Definition sticker : Image :=
  {| mode := "RGBA"; size := (2, 1); info := ∅;
     data := [[10; 20; 30; 0]; [10; 20; 30; 255]] |}.

(** A palette image with an alpha band (mode PA): one pixel, palette entry
    7, fully transparent. *)
Definition badge : Image :=
  {| mode := "PA"; size := (1, 1); info := ∅; data := [[7; 0]] |}.

End Demo.

(** ** Predicates of the statements *)

(** An image whose mode [ensure_mode_for_format] accepts for [fmt] as it
    is. *)
Definition normalized_for (fmt : string) (img : Image) : bool :=
  let fmt := upper fmt in
  if str_in fmt ["JPEG"; "JPG"] then (mode img =? "RGB")%string
  else if (fmt =? "WEBP")%string then true
  else str_in (mode img) ["RGB"; "RGBA"].

(** The images [ensure_mode_for_format] flattens for a JPEG target. *)
Definition carries_alpha (img : Image) : bool :=
  str_in (mode img) ["RGBA"; "LA"]
  || ((mode img =? "P")%string && bool_decide ("transparency" ∈ info img)).

(** Invariants of the loop of [binary_search_quality]. *)

Section SearchInvariants.
Context `{Pillow}.
Variables (img : Image) (fmt : string) (target_bytes : Z).
Variables (q_min q_max : Z) (save_kwargs : gmap string pyval).

Local Abbreviation enc := (fun q => bytes_of_save img fmt q save_kwargs).
Local Abbreviation fits :=
  (fun q => len (bytes_of_save img fmt q save_kwargs) <= target_bytes).

(** What the loop records: [best] is the encoding at a probed quality that
    fits, and it is empty only if no probe fitted. *)
Definition recorded (s : search_state) : Prop :=
  (best s = None -> Forall (fun q => ~ fits q) (probed s))
  /\ (forall d q, best s = Some (d, q) -> d = enc q /\ fits q /\ In q (probed s)).

(** The bounds of the loop variables: the search window may cross by two,
    and a recorded quality is at least [q_min - 1]. *)
Definition bounded (s : search_state) : Prop :=
  q_min <= lo s <= q_max + 1
  /\ q_min - 2 <= hi s <= q_max
  /\ lo s <= hi s + 2
  /\ (forall d q, best s = Some (d, q) -> q_min - 1 <= q <= q_max).

(** The state of the search when the encoding at [q_min] fits or the one
    below it does not: the record is the
    encoding just below [lo], which is never below [q_min]. *)
Definition settled (s : search_state) : Prop :=
  q_min <= lo s <= q_max + 1
  /\ lo s <= hi s + 2
  /\ hi s <= q_max
  /\ (lo s = hi s + 2 -> ~ fits (hi s + 1))
  /\ ((best s = None /\ lo s = q_min /\ (hi s < q_min -> ~ fits q_min))
      \/ (best s = Some (enc (lo s - 1), lo s - 1)
          /\ fits (lo s - 1) /\ q_min < lo s)).

End SearchInvariants.

(** The defaults [bytes_of_save] gives the JPEG and the WEBP writers. *)
Definition jpeg_defaults (quality : Z) : gmap string pyval :=
  {[ "optimize" := VBool true; "quality" := VInt quality;
     "progressive" := VBool true ]}.

Definition webp_defaults (quality : Z) : gmap string pyval :=
  {[ "quality" := VInt quality; "method" := VInt 6;
     "lossless" := VBool false ]}.

(** The keys a caller of [compress_to_target] may not put in [save_kwargs]
    without a parameter being bound twice or rebound along the calls. *)
Definition reserved_names : list string :=
  ["img"; "fmt"; "target_bytes"; "q_min"; "q_max"; "max_iters"; "quality";
   "self"; "fp"; "format"].

(** [save_kwargs] holds encoder options only. *)
Definition encoder_options (save_kwargs : gmap string pyval) : Prop :=
  collides reserved_names save_kwargs = false.

(** The encoder takes the format and the options, for every image and
    quality. *)
Definition encoder_accepts `{Pillow} (fmt : string)
    (save_kwargs : gmap string pyval) : Prop :=
  forall (img : Image) (quality : Z),
    save_error img (fst (save_call fmt quality save_kwargs))
      (snd (save_call fmt quality save_kwargs)) = None.

(** The tuple [compress_to_target] returns after [n] passes, for the image
    [cur]: either the result of a search within the budget, or the encoding
    at [quality_min] kept in [data_low]. *)
Definition result_of `{Pillow} (fmt : string)
    (target_bytes quality_min max_passes : Z)
    (save_kwargs : gmap string pyval)
    (cur : Image) (out : outcome) (n : Z) : Prop :=
  final_size out = size cur
  /\ size_kb out = len (written out) / 1024
  /\ ((written out
       = bytes_of_save cur fmt (quality_used out)
           (delete "max_iters" save_kwargs)
       /\ len (written out) <= target_bytes)
      \/ (written out = bytes_of_save cur fmt quality_min save_kwargs
          /\ quality_used out = quality_min
          /\ (len (written out) <= target_bytes \/ n = Z.max 0 max_passes))).

(** * Properties *)

(** ** Strings and formats *)

Lemma upper_ascii_idem (c : ascii) : upper_ascii (upper_ascii c) = upper_ascii c.
Proof. destruct c as [[] [] [] [] [] [] [] []]; reflexivity. Qed.

Lemma upper_idem (s : string) : upper (upper s) = upper s.
Proof.
  induction s as [|c s IH]; simpl; [reflexivity|].
  now rewrite upper_ascii_idem, IH.
Qed.

Example upper_jpeg : upper "jpeg" = "JPEG" /\ upper "Jpeg" = "JPEG" /\ upper "JPEG" = "JPEG".
Proof. repeat split. Qed.

Lemma str_in_cons (x y : string) (l : list string) :
  str_in x (y :: l) = (x =? y)%string || str_in x l.
Proof. reflexivity. Qed.

Lemma str_in_true (x : string) (l : list string) : str_in x l = true <-> In x l.
Proof.
  unfold str_in. rewrite existsb_exists. split.
  - intros (y & Hy & E). apply String.eqb_eq in E. now subst.
  - intros Hx. exists x. split; [assumption|apply String.eqb_refl].
Qed.

Section FormatProperties.
Context `{Pillow, Floats}.

(** C10.  The functions that take a format read it through [str.upper]: each
    gives the same result on a format string and on its uppercase form. *)
Theorem format_case_insensitive (img opened : Image) (fmt : string)
    (quality target_kb quality_min quality_max max_passes : Z)
    (max_width : option Z) (save_kwargs : gmap string pyval) :
  ensure_mode_for_format img fmt = ensure_mode_for_format img (upper fmt)
  /\ bytes_of_save img fmt quality save_kwargs
     = bytes_of_save img (upper fmt) quality save_kwargs
  /\ compress_to_target opened target_kb fmt max_width
       quality_min quality_max max_passes save_kwargs
     = compress_to_target opened target_kb (upper fmt) max_width
         quality_min quality_max max_passes save_kwargs.
Proof.
  repeat split.
  - unfold ensure_mode_for_format. now rewrite upper_idem.
  - unfold bytes_of_save, save_call. now rewrite upper_idem.
  - unfold compress_to_target, compress_to_target_passes.
    now rewrite upper_idem.
Qed.

(** The three spellings of the example behave alike. *)
Example jpeg_spellings (img : Image) :
  ensure_mode_for_format img "jpeg" = ensure_mode_for_format img "JPEG"
  /\ ensure_mode_for_format img "Jpeg" = ensure_mode_for_format img "JPEG".
Proof. split; reflexivity. Qed.

End FormatProperties.

(** ** The mode normalizer *)

Section NormalizerProperties.
Context `{Pillow}.

Lemma mode_convert (img : Image) (m : string) : mode (convert img m) = m.
Proof.
  unfold convert. destruct (mode img =? m)%string eqn:E; [|reflexivity].
  now apply String.eqb_eq in E.
Qed.

Lemma size_convert (img : Image) (m : string) : size (convert img m) = size img.
Proof. unfold convert. now destruct (mode img =? m)%string. Qed.

Lemma size_ensure_mode_for_format (img : Image) (fmt : string) :
  size (ensure_mode_for_format img fmt) = size img.
Proof.
  unfold ensure_mode_for_format.
  destruct (str_in (upper fmt) ["JPEG"; "JPG"]).
  - destruct (str_in (mode img) ["RGBA"; "LA"] || _); [reflexivity|].
    destruct (negb _); [apply size_convert|reflexivity].
  - destruct (upper fmt =? "WEBP")%string; [reflexivity|].
    destruct (negb _); [apply size_convert|reflexivity].
Qed.

(** C9.  On every branch (flattening, conversion, the image as it is) the
    normalized image has the width and the height of the input. *)
Theorem ensure_mode_for_format_size (img : Image) (fmt : string) :
  size (ensure_mode_for_format img fmt) = size img
  /\ width (ensure_mode_for_format img fmt) = width img
  /\ height (ensure_mode_for_format img fmt) = height img.
Proof.
  unfold width, height. now rewrite size_ensure_mode_for_format.
Qed.

Lemma ensure_mode_for_format_normalized (img : Image) (fmt : string) :
  normalized_for fmt (ensure_mode_for_format img fmt) = true.
Proof.
  unfold normalized_for, ensure_mode_for_format.
  destruct (str_in (upper fmt) ["JPEG"; "JPG"]).
  - destruct (str_in (mode img) ["RGBA"; "LA"] || _); [reflexivity|].
    destruct (negb (str_in (mode img) ["RGB"])) eqn:E.
    + now rewrite mode_convert.
    + apply negb_false_iff in E. rewrite str_in_cons in E. simpl in E.
      now rewrite orb_false_r in E.
  - destruct (upper fmt =? "WEBP")%string; [reflexivity|].
    destruct (negb (str_in (mode img) ["RGB"; "RGBA"])) eqn:E.
    + rewrite mode_convert. now destruct (str_in "A" (getbands img)).
    + now apply negb_false_iff in E.
Qed.

Lemma ensure_mode_for_format_fixed (img : Image) (fmt : string) :
  normalized_for fmt img = true -> ensure_mode_for_format img fmt = img.
Proof.
  unfold normalized_for, ensure_mode_for_format.
  destruct (str_in (upper fmt) ["JPEG"; "JPG"]).
  - intros E. apply String.eqb_eq in E. now rewrite E.
  - destruct (upper fmt =? "WEBP")%string; [reflexivity|].
    intros E. now rewrite E.
Qed.

(** C7.  Normalizing a normalized image returns it as it is: the second
    application yields the image of the first, pixel buffer included. *)
Theorem ensure_mode_for_format_idempotent (img : Image) (fmt : string) :
  ensure_mode_for_format (ensure_mode_for_format img fmt) fmt
  = ensure_mode_for_format img fmt
  /\ data (ensure_mode_for_format (ensure_mode_for_format img fmt) fmt)
     = data (ensure_mode_for_format img fmt).
Proof.
  assert (E := ensure_mode_for_format_fixed _ _
                 (ensure_mode_for_format_normalized img fmt)).
  now rewrite E.
Qed.

End NormalizerProperties.

(** ** Flattening transparency for JPEG *)

Lemma DIV255_exact (c : Z) : 0 <= c <= 255 -> DIV255 (c * 255) = c.
Proof.
  intros Hc.
  assert (F : forallb (fun n => DIV255 (Z.of_nat n * 255) =? Z.of_nat n)
                (seq 0 256) = true) by (vm_compute; reflexivity).
  rewrite forallb_forall in F. specialize (F (Z.to_nat c)).
  rewrite Z2Nat.id in F by lia. apply Z.eqb_eq, F, in_seq. lia.
Qed.

Lemma BLEND8_transparent (c : Z) : BLEND8 0 255 c = 255.
Proof. unfold BLEND8. now rewrite Z.mul_0_r, Z.add_0_r. Qed.

Lemma BLEND8_opaque (bg c : Z) : 0 <= c <= 255 -> BLEND8 255 bg c = c.
Proof.
  intros Hc. unfold BLEND8.
  replace (bg * (255 - 255) + c * 255) with (c * 255) by lia.
  now apply DIV255_exact.
Qed.

Section FlattenProperties.
Context `{Pillow}.

Lemma split_RGBA_last (img : Image) :
  mode img = "RGBA" -> List.last (split img) img = getband img 3.
Proof. intros E. unfold split, getbands. now rewrite E. Qed.

(** The pixels of the flattened image: each is the blend of white and the
    source colour, weighted by the source alpha. *)
Lemma flatten_lookup (src : Image) (sz : Z * Z) (i : nat) (r g b a : Z) :
  mode src = "RGBA" ->
  data src !! i = Some [r; g; b; a] ->
  (i < Z.to_nat (fst sz) * Z.to_nat (snd sz))%nat ->
  data (paste (new "RGB" sz [255; 255; 255]) src (List.last (split src) src)) !! i
  = Some [BLEND8 a 255 r; BLEND8 a 255 g; BLEND8 a 255 b].
Proof.
  intros E Hi Hlt. rewrite split_RGBA_last by assumption.
  unfold paste, new, getband, data at 1.
  apply lookup_zip_with_Some.
  exists [255; 255; 255], ([r; g; b; a], [a]). split; [reflexivity|]. split.
  - now apply lookup_replicate_2.
  - apply lookup_zip_with_Some. exists [r; g; b; a], [a].
    split; [reflexivity|]. split; [assumption|].
    cbn [data]. change (map ?f ?l) with (f <$> l).
    now rewrite list_lookup_fmap, Hi.
Qed.

(** For a JPEG-family target an image of mode RGBA or LA, or of mode P with
    a transparency entry (the images [carries_alpha] holds of), is returned
    as an RGB image of the same size, without an alpha band, each pixel being the
    alpha-weighted blend of white and the source colour: a fully transparent
    pixel becomes (255,255,255), a fully opaque one keeps its colour.  The
    colour and the alpha of a source pixel are those of the RGBA reading of
    the image, which is the image itself when its mode is RGBA. *)
Theorem jpeg_flattens_alpha_on_white (img : Image) (fmt : string) :
  str_in (upper fmt) ["JPEG"; "JPG"] = true ->
  carries_alpha img = true ->
  let src := convert img "RGBA" in
  let out := ensure_mode_for_format img fmt in
  mode out = "RGB" /\ size out = size img /\ ~ In "A" (getbands out)
  /\ forall (i : nat) (r g b a : Z),
       data src !! i = Some [r; g; b; a] ->
       (i < Z.to_nat (width img) * Z.to_nat (height img))%nat ->
       data out !! i = Some [BLEND8 a 255 r; BLEND8 a 255 g; BLEND8 a 255 b]
       /\ (a = 0 -> data out !! i = Some [255; 255; 255])
       /\ (a = 255 -> 0 <= r <= 255 -> 0 <= g <= 255 -> 0 <= b <= 255 ->
           data out !! i = Some [r; g; b]).
Proof.
  intros Hfmt Halpha src out.
  assert (Eout : out = paste (new "RGB" (size img) [255; 255; 255]) src
                         (List.last (split src) src)).
  { unfold out, ensure_mode_for_format. unfold carries_alpha in Halpha.
    rewrite Hfmt, Halpha. unfold src, convert.
    now destruct (mode img =? "RGBA")%string. }
  assert (Emode : mode out = "RGB") by now rewrite Eout.
  repeat split.
  - assumption.
  - now rewrite Eout.
  - unfold getbands. rewrite Emode. simpl. intros [E|[E|[E|[]]]]; discriminate.
  - rewrite Eout. apply flatten_lookup; [apply mode_convert|assumption..].
  - intros ->. rewrite Eout.
    erewrite flatten_lookup; [|apply mode_convert|eassumption|assumption].
    now rewrite !BLEND8_transparent.
  - intros -> Hr Hg Hb. rewrite Eout.
    erewrite flatten_lookup; [|apply mode_convert|eassumption|assumption].
    now rewrite !BLEND8_opaque.
Qed.

End FlattenProperties.

(** ** Downscaling *)

Lemma py_int_bounds (x : Q) (w : Z) :
  (0 <= x)%Q -> (x <= inject_Z w)%Q -> 0 <= py_int x <= w.
Proof.
  destruct x as [n d]. unfold Qle, py_int. simpl. intros H0 Hw.
  rewrite Z.quot_div_nonneg by lia. split.
  - apply Z.div_pos; lia.
  - apply Z.div_le_upper_bound; lia.
Qed.

Section ScaleProperties.
Context `{Pillow, Floats}.
Hypothesis laws : FloatLaws.

Lemma int_times_float_bounds (w : Z) (factor : Q) :
  (0 < factor)%Q -> (factor < 1)%Q -> 0 <= w <= 2 ^ 53 ->
  0 <= py_int (int_times_float w factor) <= w.
Proof.
  intros Hpos Hlt Hw. apply py_int_bounds; unfold int_times_float.
  - apply Qle_trans with (rnd (inject_Z 0)).
    + apply Qle_lteq. right. symmetry. apply (rnd_int laws). simpl. lia.
    + apply (rnd_mono laws). destruct factor as [n d].
      unfold Qle, Qlt in *. simpl in *. nia.
  - apply Qle_trans with (rnd (inject_Z w)).
    + apply (rnd_mono laws). destruct factor as [n d].
      unfold Qle, Qlt in *. simpl in *. nia.
    + apply Qle_lteq. right. apply (rnd_int laws). lia.
Qed.

(** C5.  For a factor strictly between 0 and 1 the scaled image is at least
    one pixel and at most the input each way; and when the computed
    dimensions [max(1, int(w * factor))], [max(1, int(h * factor))] are those
    of the input, each dimension is reduced by one pixel, floored at 1. *)
Theorem scale_by_factor_shrinks (img : Image) (factor : Q) :
  (0 < factor)%Q -> (factor < 1)%Q -> valid_size img ->
  let out := scale_by_factor img factor in
  let new_w := Z.max 1 (py_int (int_times_float (width img) factor)) in
  let new_h := Z.max 1 (py_int (int_times_float (height img) factor)) in
  (1 <= width out <= width img /\ 1 <= height out <= height img)
  /\ ((new_w, new_h) = size img ->
      size out = (Z.max 1 (width img - 1), Z.max 1 (height img - 1)))
  /\ ((new_w, new_h) <> size img -> size out = (new_w, new_h)).
Proof.
  intros Hpos Hlt [Hw Hh] out new_w new_h.
  assert (Bw := int_times_float_bounds (width img) factor Hpos Hlt).
  assert (Bh := int_times_float_bounds (height img) factor Hpos Hlt).
  assert (Eout : size out =
            if (new_w =? width img) && (new_h =? height img)
            then (Z.max 1 (width img - 1), Z.max 1 (height img - 1))
            else (new_w, new_h)).
  { unfold out, scale_by_factor, new_w, new_h, width, height.
    destruct (size img) as [w h]. simpl.
    now destruct (_ && _). }
  unfold width at 1 2, height at 1 2. rewrite Eout.
  unfold width, height in *. destruct (size img) as [w h]. simpl in *.
  destruct ((new_w =? w) && (new_h =? h)) eqn:E.
  - simpl. repeat split; try lia. intros Hne. exfalso. apply Hne.
    apply andb_prop in E as [E1 E2].
    apply Z.eqb_eq in E1, E2. now rewrite E1, E2.
  - simpl. repeat split; try lia. intros [= E1 E2].
    rewrite E1, E2, !Z.eqb_refl in E. discriminate.
Qed.

End ScaleProperties.

(** ** The quality search *)

Lemma mid_bounds (a b : Z) : 2 * ((a + b) / 2) <= a + b < 2 * ((a + b) / 2) + 2.
Proof.
  pose proof (Z.div_mod (a + b) 2). pose proof (Z.mod_pos_bound (a + b) 2). lia.
Qed.

Section SearchProperties.
Context `{Pillow}.
Variables (img : Image) (fmt : string) (target_bytes : Z).
Variables (q_min q_max : Z) (save_kwargs : gmap string pyval).

Local Abbreviation enc := (fun q => bytes_of_save img fmt q save_kwargs).
Local Abbreviation fits := (fun q => len (bytes_of_save img fmt q save_kwargs) <= target_bytes).
Local Abbreviation step := (search_step img fmt target_bytes save_kwargs).
Local Abbreviation loop := (search_loop img fmt target_bytes save_kwargs).
Local Abbreviation init := (search_init q_min q_max).
Local Abbreviation finish := (search_finish img fmt target_bytes q_min save_kwargs).
Local Abbreviation recorded := (recorded img fmt target_bytes save_kwargs).
Local Abbreviation bounded := (bounded q_min q_max).
Local Abbreviation settled := (settled img fmt target_bytes q_min q_max save_kwargs).

Lemma search_loop_invariant (P : search_state -> Prop) (n : nat) (s : search_state) :
  (forall s', P s' -> P (step s')) -> P s -> P (loop n s).
Proof.
  intros Hstep. revert s. induction n as [|n IH]; intros s Hs; simpl.
  - assumption.
  - apply IH, Hstep, Hs.
Qed.


Lemma recorded_step (s : search_state) : recorded s -> recorded (step s).
Proof.
  intros [Hnone Hsome]. unfold search_step.
  destruct (Z.leb_spec (len (enc ((lo s + hi s) / 2))) target_bytes) as [Hfit|Hfit];
    split; cbn [best probed].
  - discriminate.
  - intros d q [= <- <-]. repeat split; [assumption|now left].
  - intros E. constructor; [lia|auto].
  - intros d q E. destruct (Hsome d q E) as (? & ? & ?).
    repeat split; [assumption..|now right].
Qed.

Lemma recorded_loop (n : nat) : recorded (loop n init).
Proof.
  apply search_loop_invariant; [apply recorded_step|].
  split; [constructor|discriminate].
Qed.

Lemma binary_search_quality_Some (max_iters : Z) (d : list byte) (q : Z) :
  binary_search_quality img fmt target_bytes q_min q_max save_kwargs max_iters
  = Some (d, q) ->
  d = bytes_of_save img fmt q save_kwargs /\ len d <= target_bytes.
Proof.
  unfold binary_search_quality, search_finish.
  destruct (recorded_loop (Z.to_nat max_iters)) as [_ Hsome].
  destruct (best (loop (Z.to_nat max_iters) init)) as [[d' q']|] eqn:E.
  - intros [= <- <-]. destruct (Hsome d' q' eq_refl) as (Hd & Hfit & _).
    subst d'. now split.
  - destruct (Z.leb_spec (len (enc q_min)) target_bytes) as [Hfit|Hfit];
      [|discriminate].
    intros [= <- <-]. now split.
Qed.

Lemma binary_search_quality_None (max_iters : Z) :
  binary_search_quality img fmt target_bytes q_min q_max save_kwargs max_iters
  = None ->
  target_bytes < len (bytes_of_save img fmt q_min save_kwargs).
Proof.
  unfold binary_search_quality, search_finish.
  destruct (best (loop (Z.to_nat max_iters) init)) as [[d' q']|]; [discriminate|].
  destruct (Z.leb_spec (len (enc q_min)) target_bytes) as [Hfit|Hfit];
    [discriminate|].
  intros _. exact Hfit.
Qed.

(** C3.  The search fails exactly when no quality probed by the loop gave
    an encoding within the budget and the encoding at [q_min] is over the
    budget too; a result it returns is the encoding at the returned quality
    and is within the budget. *)
Theorem binary_search_quality_fails_iff (max_iters : Z) :
  (binary_search_quality img fmt target_bytes q_min q_max save_kwargs max_iters = None
   <-> Forall (fun q => target_bytes < len (bytes_of_save img fmt q save_kwargs))
         (search_probes img fmt target_bytes q_min q_max save_kwargs max_iters)
       /\ target_bytes < len (bytes_of_save img fmt q_min save_kwargs))
  /\ (forall data quality,
        binary_search_quality img fmt target_bytes q_min q_max save_kwargs max_iters
        = Some (data, quality) ->
        len data <= target_bytes
        /\ data = bytes_of_save img fmt quality save_kwargs).
Proof.
  unfold binary_search_quality, search_probes, search_finish.
  destruct (recorded_loop (Z.to_nat max_iters)) as [Hnone Hsome].
  destruct (best (loop (Z.to_nat max_iters) init)) as [[d q]|] eqn:E.
  - destruct (Hsome d q eq_refl) as (Hd & Hfit & Hin). split.
    + split; [discriminate|]. intros [Hall _]. exfalso.
      rewrite List.Forall_forall in Hall.
      specialize (Hall q). rewrite <- in_rev in Hall. specialize (Hall Hin). lia.
    + intros data quality [= <- <-]. subst d. split; [assumption|reflexivity].
  - specialize (Hnone eq_refl).
    destruct (Z.leb_spec (len (enc q_min)) target_bytes) as [Hfit|Hfit]; split.
    + split; [discriminate|]. intros [_ Hq]. lia.
    + intros data quality [= <- <-]. split; [assumption|reflexivity].
    + split; [|reflexivity]. intros _. split; [|assumption].
      apply Forall_rev. eapply Forall_impl; [exact Hnone|].
      simpl. intros q Hq. lia.
    + discriminate.
Qed.

(** *** The range of the returned quality *)


Lemma bounded_step (s : search_state) : bounded s -> bounded (step s).
Proof.
  intros (Hlo & Hhi & Hgap & Hbest).
  pose proof (mid_bounds (lo s) (hi s)) as Hmid.
  unfold search_step, bounded.
  destruct (Z.leb_spec (len (enc ((lo s + hi s) / 2))) target_bytes) as [Hfit|Hfit];
    cbn [best lo hi]; refine (conj _ (conj _ (conj _ _))); try lia.
  - intros d q [= <- <-]. lia.
  - intros d q E. apply (Hbest d q E).
Qed.

(** Whatever the encoder, with [q_min <= q_max] a returned quality is at
    most [q_max] and at least [q_min - 1]: the loop can probe one step below
    the lower bound, and no further. *)
Theorem binary_search_quality_range (max_iters : Z) (data : list byte) (quality : Z) :
  q_min <= q_max ->
  binary_search_quality img fmt target_bytes q_min q_max save_kwargs max_iters
  = Some (data, quality) ->
  q_min - 1 <= quality <= q_max.
Proof.
  intros Hq. unfold binary_search_quality, search_finish.
  assert (B : bounded (loop (Z.to_nat max_iters) init)).
  { apply search_loop_invariant; [apply bounded_step|].
    unfold bounded. cbn [best lo hi search_init].
    refine (conj _ (conj _ (conj _ _))); try lia. discriminate. }
  destruct B as (_ & _ & _ & Hbest).
  destruct (best (loop (Z.to_nat max_iters) init)) as [[d q]|] eqn:E.
  - intros [= <- <-]. now apply (Hbest d).
  - destruct (_ <=? _); [|discriminate].
    intros [= <- <-]. lia.
Qed.

(** *** Agreement with the loop that stops when the window is empty *)

Hypothesis valid_bounds : q_min <= q_max.
Hypothesis floor_decides : fits q_min \/ ~ fits (q_min - 1).


Lemma settled_init : settled init.
Proof.
  unfold settled. cbn [best lo hi search_init].
  repeat split; try lia. left. repeat split; lia.
Qed.

Lemma settled_step (s : search_state) : settled s -> settled (step s).
Proof.
  intros (Hlo & Hgap & Hhi & Hfail & Hbest).
  pose proof (mid_bounds (lo s) (hi s)) as Hmid.
  unfold search_step. cbv zeta.
  set (mid := (lo s + hi s) / 2) in *.
  destruct (Z.leb_spec (len (enc mid)) target_bytes) as [Hfit|Hfit];
    unfold settled; cbn [best lo hi].
  - assert (Hcross : lo s <= hi s + 1).
    { destruct (Z.le_gt_cases (lo s) (hi s + 1)) as [|Hgt]; [assumption|].
      exfalso. apply Hfail; [lia|]. replace (hi s + 1) with mid by lia. exact Hfit. }
    assert (Hge : q_min <= mid).
    { destruct (Z.le_gt_cases q_min mid) as [|Hlt]; [assumption|]. exfalso.
      destruct Hbest as [(_ & Elo & Hmin)|(_ & _ & Hlt')]; [|lia].
      assert (Em : mid = q_min - 1) by lia.
      destruct floor_decides as [Hside|Hside].
      - apply Hmin; [lia|exact Hside].
      - apply Hside. rewrite <- Em. exact Hfit. }
    repeat split; try lia. right.
    replace (mid + 1 - 1) with mid by lia. repeat split; [assumption|lia].
  - repeat split; try lia.
    + intros E. replace (mid - 1 + 1) with mid by lia. lia.
    + destruct Hbest as [(Eb & Elo & Hmin)|Hsome]; [left|right; exact Hsome].
      repeat split; [assumption..|]. intros Hlt.
      destruct (Z.eq_dec mid q_min) as [Em|Hne].
      * rewrite <- Em. lia.
      * apply Hmin. lia.
Qed.

Lemma crossed_step (s : search_state) :
  settled s -> lo s > hi s ->
  best (step s) = best s /\ lo (step s) > hi (step s).
Proof.
  intros (Hlo & Hgap & Hhi & Hfail & Hbest) Hcross.
  pose proof (mid_bounds (lo s) (hi s)) as Hmid.
  unfold search_step. cbv zeta.
  set (mid := (lo s + hi s) / 2) in *.
  assert (Em : mid = lo s - 1) by lia.
  destruct (Z.leb_spec (len (enc mid)) target_bytes) as [Hfit|Hfit];
    cbn [best lo hi]; [|split; [reflexivity|lia]].
  split; [|lia].
  destruct Hbest as [(_ & Elo & Hmin)|(Eb & _ & _)].
  - exfalso. destruct floor_decides as [Hside|Hside].
    + apply Hmin; [lia|exact Hside].
    + apply Hside. replace (q_min - 1) with mid by lia. exact Hfit.
  - rewrite Eb, Em. reflexivity.
Qed.

Lemma crossed_loop (n : nat) (s : search_state) :
  settled s -> lo s > hi s -> best (loop n s) = best s.
Proof.
  revert s. induction n as [|n IH]; intros s Hs Hcross; simpl; [reflexivity|].
  destruct (crossed_step s Hs Hcross) as [Eb Hc].
  rewrite IH; [exact Eb|now apply settled_step|exact Hc].
Qed.

Lemma early_exit_best (n : nat) (s : search_state) :
  settled s ->
  best (loop n s)
  = best (search_loop_early_exit img fmt target_bytes save_kwargs n s).
Proof.
  revert s. induction n as [|n IH]; intros s Hs; simpl; [reflexivity|].
  destruct (Z.gtb_spec (lo s) (hi s)) as [Hcross|Hopen].
  - change (best (loop (S n) s) = best s). apply crossed_loop; [assumption|lia].
  - apply IH, settled_step, Hs.
Qed.

(** When the encoding at [q_min] fits or the encoding at [q_min - 1] does
    not, the iterations that follow [lo > hi] leave the record as it is: the
    search and its variant that leaves the loop at [lo > hi] return the same
    result. *)
Theorem binary_search_quality_early_exit_agrees (max_iters : Z) :
  binary_search_quality img fmt target_bytes q_min q_max save_kwargs max_iters
  = binary_search_quality_early_exit img fmt target_bytes q_min q_max
      save_kwargs max_iters.
Proof.
  unfold binary_search_quality, binary_search_quality_early_exit, search_finish.
  now rewrite (early_exit_best _ _ settled_init).
Qed.

(** Under the same condition a returned quality lies within
    [[q_min, q_max]]. *)
Theorem binary_search_quality_in_bounds (max_iters : Z) (data : list byte) (quality : Z) :
  binary_search_quality img fmt target_bytes q_min q_max save_kwargs max_iters
  = Some (data, quality) ->
  q_min <= quality <= q_max.
Proof.
  unfold binary_search_quality, search_finish.
  assert (S : settled (loop (Z.to_nat max_iters) init)).
  { apply search_loop_invariant; [apply settled_step|apply settled_init]. }
  destruct S as (Hlo & _ & _ & _ & Hbest).
  destruct Hbest as [(Eb & _)|(Eb & _ & Hlt)]; rewrite Eb.
  - destruct (_ <=? _); [|discriminate].
    intros [= <- <-]. lia.
  - intros [= <- <-]. lia.
Qed.

End SearchProperties.

(** ** Calls and their exceptions *)

Lemma lookup_setdefault (k j : string) (v : pyval) (d : gmap string pyval) :
  setdefault k v d !! j
  = match d !! j with
    | Some x => Some x
    | None => if decide (k = j) then Some v else None
    end.
Proof.
  unfold setdefault. destruct (d !! k) eqn:Ek.
  - destruct (d !! j) eqn:Ej; [reflexivity|].
    destruct (decide (k = j)) as [->|]; [congruence|reflexivity].
  - rewrite lookup_insert. destruct (decide (k = j)) as [->|].
    + now rewrite Ek.
    + now destruct (d !! j).
Qed.

Lemma collides_false (params : list string) (kwargs : gmap string pyval) :
  collides params kwargs = false <-> forall p, In p params -> kwargs !! p = None.
Proof.
  unfold collides. induction params as [|p ps IH]; simpl.
  - split; [intros _ p []|reflexivity].
  - rewrite orb_false_iff, IH. split.
    + intros [Hp Hps] q [<-|Hq]; [now destruct (kwargs !! p)|now apply Hps].
    + intros Hall. split; [now rewrite (Hall p) by now left|].
      intros q Hq. apply Hall. now right.
Qed.

Section RunProperties.
Context `{Pillow}.

(** A call that returns, returns what the function computes. *)
Lemma bytes_of_save_run_Ok (img : Image) (fmt : string) (q : Z)
    (kw : gmap string pyval) (d : list byte) :
  bytes_of_save_run img fmt q kw = Ok d -> d = bytes_of_save img fmt q kw.
Proof.
  unfold bytes_of_save_run, bytes_of_save.
  destruct (collides _ kw); [discriminate|].
  destruct (save_call fmt q kw) as [format kwargs].
  destruct (collides _ kwargs); [discriminate|].
  destruct (save_error img format kwargs); [discriminate|].
  now intros [= <-].
Qed.

Lemma search_loop_run_Ok (img : Image) (fmt : string) (target_bytes : Z)
    (kw : gmap string pyval) (n : nat) (s s' : search_state) :
  search_loop_run img fmt target_bytes kw n s = Ok s' ->
  s' = search_loop img fmt target_bytes kw n s.
Proof.
  revert s. induction n as [|n IH]; intros s; simpl.
  - now intros [= <-].
  - unfold search_step_run.
    destruct (bytes_of_save_run img fmt _ kw); cbn [mbind result_bind];
      try discriminate.
    apply IH.
Qed.

Lemma binary_search_quality_run_Ok (img : Image) (fmt : string)
    (target_bytes q_min q_max : Z) (kw : gmap string pyval) (max_iters : Z)
    (r : option (list byte * Z)) :
  binary_search_quality_run img fmt target_bytes q_min q_max kw max_iters = Ok r ->
  r = binary_search_quality img fmt target_bytes q_min q_max kw max_iters.
Proof.
  unfold binary_search_quality_run, binary_search_quality.
  destruct (search_loop_run _ _ _ _ _ _) as [s| |] eqn:E;
    cbn [mbind result_bind]; try discriminate.
  apply search_loop_run_Ok in E. subst s.
  unfold search_finish_run, search_finish.
  destruct (best _); [now intros [= <-]|].
  destruct (bytes_of_save_run img fmt q_min kw); cbn [mbind result_bind];
    try discriminate.
  now intros [= <-].
Qed.

(** The search [compress_to_target] calls, when it returns, is the search
    for some iteration count and the options without [max_iters]. *)
Lemma call_binary_search_quality_Ok (img : Image) (fmt : string)
    (target_bytes q_min q_max : Z) (kw : gmap string pyval)
    (r : option (list byte * Z)) :
  call_binary_search_quality img fmt target_bytes q_min q_max kw = Ok r ->
  exists max_iters,
    r = binary_search_quality img fmt target_bytes q_min q_max
          (delete "max_iters" kw) max_iters.
Proof.
  unfold call_binary_search_quality.
  destruct (collides _ kw); [discriminate|].
  destruct (kw !! "max_iters") as [v|] eqn:Ev.
  - destruct (as_count v) as [n| |]; cbn [mbind result_bind]; try discriminate.
    intros E. exists n. now apply binary_search_quality_run_Ok.
  - intros E. exists default_max_iters. rewrite delete_id by exact Ev.
    now apply binary_search_quality_run_Ok.
Qed.

(** With encoder options only and an encoder that takes them, no call
    raises. *)
Lemma save_call_lookup (fmt : string) (q : Z) (kw : gmap string pyval)
    (p : string) :
  ~ In p ["optimize"; "quality"; "progressive"; "method"; "lossless"] ->
  snd (save_call fmt q kw) !! p = kw !! p.
Proof.
  intros Hp. unfold save_call.
  destruct (str_in (upper fmt) ["JPEG"; "JPG"]);
    [|destruct (upper fmt =? "WEBP")%string;
      [|destruct (bool_decide ("quality" ∈ SAVE))]];
    cbn [snd]; rewrite ?lookup_setdefault; destruct (kw !! p);
    try reflexivity; repeat case_decide; try reflexivity;
    exfalso; apply Hp; subst p; simpl; tauto.
Qed.

Lemma bytes_of_save_run_total (img : Image) (fmt : string) (q : Z)
    (kw : gmap string pyval) :
  encoder_options kw -> encoder_accepts fmt kw ->
  bytes_of_save_run img fmt q kw = Ok (bytes_of_save img fmt q kw).
Proof.
  intros Hopt Hacc. unfold encoder_options in Hopt.
  rewrite collides_false in Hopt.
  unfold bytes_of_save_run, bytes_of_save.
  replace (collides ["img"; "fmt"; "quality"] kw) with false.
  2:{ symmetry. apply collides_false. intros p Hp. apply Hopt.
      unfold reserved_names. simpl in *. tauto. }
  specialize (Hacc img q).
  assert (Hsave : collides ["self"; "fp"; "format"] (snd (save_call fmt q kw)) = false).
  { apply collides_false. intros p Hp. rewrite save_call_lookup.
    - apply Hopt. unfold reserved_names. simpl in *. tauto.
    - simpl in *. intros Hc. intuition congruence. }
  destruct (save_call fmt q kw) as [format kwargs]. cbn [fst snd] in *.
  now rewrite Hsave, Hacc.
Qed.

Lemma search_loop_run_total (img : Image) (fmt : string) (target_bytes : Z)
    (kw : gmap string pyval) (n : nat) (s : search_state) :
  encoder_options kw -> encoder_accepts fmt kw ->
  search_loop_run img fmt target_bytes kw n s
  = Ok (search_loop img fmt target_bytes kw n s).
Proof.
  intros Hopt Hacc. revert s. induction n as [|n IH]; intros s; simpl;
    [reflexivity|].
  unfold search_step_run. rewrite bytes_of_save_run_total by assumption.
  cbn [mbind result_bind]. apply IH.
Qed.

Lemma call_binary_search_quality_total (img : Image) (fmt : string)
    (target_bytes q_min q_max : Z) (kw : gmap string pyval) :
  encoder_options kw -> encoder_accepts fmt kw ->
  call_binary_search_quality img fmt target_bytes q_min q_max kw
  = Ok (binary_search_quality img fmt target_bytes q_min q_max kw
          default_max_iters).
Proof.
  intros Hopt Hacc. pose proof Hopt as Hnone. unfold encoder_options in Hnone.
  rewrite collides_false in Hnone.
  unfold call_binary_search_quality.
  replace (collides ["img"; "fmt"; "target_bytes"; "q_min"; "q_max"] kw)
    with false.
  2:{ symmetry. apply collides_false. intros p Hp. apply Hnone.
      unfold reserved_names. simpl in *. tauto. }
  rewrite (Hnone "max_iters") by (unfold reserved_names; simpl; tauto).
  unfold binary_search_quality_run, binary_search_quality.
  rewrite search_loop_run_total by assumption. cbn [mbind result_bind].
  unfold search_finish_run. destruct (best _) eqn:E.
  - unfold search_finish. now rewrite E.
  - now rewrite bytes_of_save_run_total by assumption.
Qed.

End RunProperties.

(** ** The resolution backoff loop *)

Section CompressProperties.
Context `{Pillow, Floats}.
Hypothesis laws : FloatLaws.

Lemma bytes_of_save_nonempty (img : Image) (fmt : string) (q : Z)
    (kw : gmap string pyval) :
  (forall (img : Image) (format : string) (kwargs : gmap string pyval),
     save img format kwargs <> []) ->
  bytes_of_save img fmt q kw <> [].
Proof.
  intros Hsave. unfold bytes_of_save. destruct (save_call fmt q kw).
  apply Hsave.
Qed.

Lemma rnd_nonneg (x : Q) : (0 <= x)%Q -> Qle_bool 0 (rnd x) = true.
Proof.
  intros Hx. apply Qle_bool_iff. apply Qle_trans with (rnd (inject_Z 0)).
  - apply Qle_lteq. right. symmetry. apply (rnd_int laws). simpl. lia.
  - now apply (rnd_mono laws).
Qed.

Lemma truediv_ok (a b : Z) : b <> 0 -> exists x, truediv a b = Ok x.
Proof.
  intros Hb. unfold truediv. destruct (Z.eqb_spec b 0); [contradiction|].
  now eexists.
Qed.

Lemma backoff_factor_ok (target_bytes current_bytes : Z) :
  0 <= target_bytes -> target_bytes < current_bytes ->
  exists factor, backoff_factor target_bytes current_bytes = Ok factor.
Proof.
  intros Ht Hc. unfold backoff_factor, truediv.
  destruct (Z.eqb_spec current_bytes 0) as [E|_]; [lia|].
  cbn [mbind result_bind]. unfold math_sqrt. rewrite rnd_nonneg.
  - cbn [mbind result_bind]. now eexists.
  - apply Qle_shift_div_l.
    + unfold Qlt. simpl. lia.
    + rewrite Qmult_0_l. unfold Qle. simpl. lia.
Qed.

Section Loop.
Variables (fmt : string) (target_bytes : Z).
Variables (quality_min quality_max max_passes : Z).
Variable save_kwargs : gmap string pyval.
Hypothesis budget_nonneg : 0 <= target_bytes.
Hypothesis options_only : encoder_options save_kwargs.
Hypothesis accepted : encoder_accepts fmt save_kwargs.

Lemma backoff_loop_returns (fuel : nat) (st : backoff_state) :
  max_passes - passes st <= Z.of_nat fuel ->
  target_bytes < current_bytes st ->
  current_bytes st = len (data_low st) ->
  data_low st = bytes_of_save (cur_img st) fmt quality_min save_kwargs ->
  exists out n cur,
    backoff_loop fmt target_bytes quality_min quality_max max_passes
      save_kwargs fuel st = Ok (out, n)
    /\ passes st <= n <= Z.max (passes st) max_passes
    /\ size_kb out = len (written out) / 1024
    /\ final_size out = size cur
    /\ written out = bytes_of_save cur fmt (quality_used out) save_kwargs
    /\ (len (written out) <= target_bytes
        \/ (n = Z.max (passes st) max_passes
            /\ quality_used out = quality_min
            /\ target_bytes < len (written out))).
Proof.
  revert st. induction fuel as [|fuel IH]; intros st Hfuel Hover Hlen Hlow;
    cbn [backoff_loop];
    destruct ((current_bytes st >? target_bytes) && (passes st <? max_passes))
      eqn:G.
  - apply andb_prop in G as [_ G]. apply Z.ltb_lt in G. lia.
  - eexists _, _, (cur_img st). split; [reflexivity|].
    cbn [written size_kb final_size quality_used].
    assert (max_passes <= passes st).
    { destruct (Z.gtb_spec (current_bytes st) target_bytes),
        (Z.ltb_spec (passes st) max_passes); simpl in G; try discriminate; lia. }
    split; [lia|]. split; [reflexivity|]. split; [reflexivity|].
    split; [exact Hlow|].
    right. split; [lia|]. split; [reflexivity|lia].
  - apply andb_prop in G as [_ G]. apply Z.ltb_lt in G.
    destruct (backoff_factor_ok target_bytes (current_bytes st) budget_nonneg Hover)
      as [factor ->].
    cbn [mbind result_bind].
    set (cur := scale_by_factor (cur_img st) factor).
    rewrite call_binary_search_quality_total by assumption.
    cbn [mbind result_bind].
    destruct (binary_search_quality cur fmt target_bytes quality_min quality_max
                save_kwargs default_max_iters) as [[d q]|] eqn:E.
    + apply binary_search_quality_Some in E as [Hd Hfit].
      eexists _, _, cur. split; [reflexivity|].
      cbn [written size_kb final_size quality_used].
      split; [lia|]. split; [reflexivity|]. split; [reflexivity|].
      split; [exact Hd|]. left. exact Hfit.
    + apply binary_search_quality_None in E.
      rewrite bytes_of_save_run_total by assumption. cbn [mbind result_bind].
      edestruct (IH {| passes := passes st + 1; cur_img := cur;
                       data_low := bytes_of_save cur fmt quality_min save_kwargs;
                       current_bytes := len (bytes_of_save cur fmt quality_min save_kwargs) |})
        as (out & n & cur' & Hrun & Hn & Hkb & Hsz & Hw & Hcase);
        cbn [passes cur_img data_low current_bytes]; try reflexivity; try lia.
      cbn [passes] in *.
      exists out, n, cur'. split; [exact Hrun|]. split; [lia|].
      split; [exact Hkb|]. split; [exact Hsz|]. split; [exact Hw|].
      destruct Hcase as [Hfit|(En & Eq & Hov)]; [left; assumption|right].
      split; [lia|]. split; assumption.
  - eexists _, _, (cur_img st). split; [reflexivity|].
    cbn [written size_kb final_size quality_used].
    assert (max_passes <= passes st).
    { destruct (Z.gtb_spec (current_bytes st) target_bytes),
        (Z.ltb_spec (passes st) max_passes); simpl in G; try discriminate; lia. }
    split; [lia|]. split; [reflexivity|]. split; [reflexivity|].
    split; [exact Hlow|].
    right. split; [lia|]. split; [reflexivity|lia].
Qed.

End Loop.

Lemma size_load_image (opened : Image) : size (load_image opened) = size opened.
Proof.
  unfold load_image. destruct (mode opened =? "P")%string;
    [apply size_convert|reflexivity].
Qed.


End CompressProperties.

(** ** What [bytes_of_save] hands to the encoder *)

Section SaveProperties.
Context `{Pillow}.

(** Outside the JPEG family and WEBP, whether [quality] reaches [img.save]
    is decided by the membership of the string "quality" in the registry
    [Image.SAVE], whatever the format. *)
Lemma save_call_other_formats (fmt : string) (quality : Z)
    (save_kwargs : gmap string pyval) :
  str_in (upper fmt) ["JPEG"; "JPG"] = false ->
  upper fmt <> "WEBP" ->
  save_call fmt quality save_kwargs
  = (upper fmt,
     if bool_decide ("quality" ∈ SAVE)
     then setdefault "quality" (VInt quality) save_kwargs
     else save_kwargs).
Proof.
  intros Hjpeg Hwebp. unfold save_call. rewrite Hjpeg.
  destruct (String.eqb_spec (upper fmt) "WEBP"); [contradiction|reflexivity].
Qed.

(** Pillow registers a writer under the uppercased name of its format
    ([Image.register_save] stores [SAVE[id.upper()]]).  With such a registry
    no writer is named "quality": for a format outside the JPEG family and
    WEBP the encoder receives the caller's keywords alone, the bytes do not
    depend on the quality asked for, and so the search over qualities
    succeeds or fails at every quality alike. *)
Theorem bytes_of_save_ignores_quality (img : Image) (fmt : string)
    (q1 q2 : Z) (save_kwargs : gmap string pyval) :
  (forall k : string, k ∈ SAVE -> upper k = k) ->
  str_in (upper fmt) ["JPEG"; "JPG"] = false ->
  upper fmt <> "WEBP" ->
  save_call fmt q1 save_kwargs = (upper fmt, save_kwargs)
  /\ bytes_of_save img fmt q1 save_kwargs = bytes_of_save img fmt q2 save_kwargs
  /\ forall target_bytes q_min q_max max_iters,
       binary_search_quality img fmt target_bytes q_min q_max save_kwargs
         max_iters <> None
       <-> len (bytes_of_save img fmt q1 save_kwargs) <= target_bytes.
Proof.
  intros Hupper Hjpeg Hwebp.
  assert (Hq : bool_decide ("quality" ∈ SAVE) = false).
  { apply bool_decide_eq_false. intros Hin. apply Hupper in Hin.
    discriminate Hin. }
  assert (Hcall : forall q, save_call fmt q save_kwargs = (upper fmt, save_kwargs)).
  { intros q. rewrite save_call_other_formats by assumption. now rewrite Hq. }
  assert (Hsame : forall q q',
             bytes_of_save img fmt q save_kwargs
             = bytes_of_save img fmt q' save_kwargs).
  { intros q q'. unfold bytes_of_save. now rewrite !Hcall. }
  split; [apply Hcall|]. split; [apply Hsame|].
  intros target_bytes q_min q_max max_iters. split.
  - destruct (binary_search_quality img fmt target_bytes q_min q_max
                save_kwargs max_iters) as [[d q]|] eqn:E; [|congruence].
    intros _. apply binary_search_quality_Some in E as [-> Hfit].
    now rewrite (Hsame q1 q).
  - intros Hfit E. apply binary_search_quality_None in E.
    rewrite (Hsame q_min q1) in E. lia.
Qed.

End SaveProperties.

(** ** Concrete runs *)

Section Runs.
#[local] Existing Instance Demo.pillow.
#[local] Existing Instance Demo.floats.

Lemma demo_float_laws : FloatLaws.
Proof.
  split.
  - intros x y Hxy. exact Hxy.
  - intros z _. apply Qeq_refl.
Qed.

Lemma demo_save_nonempty (img : Image) (format : string)
    (kwargs : gmap string pyval) : save img format kwargs <> [].
Proof. discriminate. Qed.

Lemma demo_len_jpeg (img : Image) (q : Z) :
  len (bytes_of_save img "JPEG" q ∅)
  = 1 + Z.of_nat (Z.to_nat (width img * height img * q)).
Proof.
  unfold bytes_of_save. 
  change (save_call "JPEG" q ∅) with
    ("JPEG", setdefault "progressive" (VBool true)
               (setdefault "quality" (VInt q)
                  (setdefault "optimize" (VBool true) ∅))).
  cbn [save Demo.pillow]. unfold Demo.encode.
  assert (E : Demo.quality_of (setdefault "progressive" (VBool true)
               (setdefault "quality" (VInt q)
                  (setdefault "optimize" (VBool true) ∅))) = q)
    by (vm_compute; reflexivity).
  rewrite E. unfold len. cbn [length]. rewrite length_replicate. lia.
Qed.

(** C1 (the code at a failing input).  With the default bounds 5 and 95 and
    8 iterations, an image whose encoding is over the budget at quality 5
    and within it at quality 4: the loop probes 50, 27, 15, 9, 6, 5 and then
    4 twice, and the search returns quality 4, below [q_min], where the
    docstring promises [(None, None)]; [compress_to_target] reports that
    quality for [quality_min = 5]. *)
Theorem binary_search_quality_below_q_min :
  450 < len (bytes_of_save Demo.tile "JPEG" 5 ∅)
  /\ search_probes Demo.tile "JPEG" 450 5 95 ∅ 8 = [50; 27; 15; 9; 6; 5; 4; 4]
  /\ binary_search_quality Demo.tile "JPEG" 450 5 95 ∅ 8
     = Some (bytes_of_save Demo.tile "JPEG" 4 ∅, 4)
  /\ (out ← compress_to_target Demo.card 1 "JPEG" None 5 95 6 ∅;
      Ok (quality_used out)) = Ok 4.
Proof. repeat split; vm_compute; reflexivity. Qed.

(** C2 (the code at a failing input).  The encoder of the run is
    deterministic and its output grows with the quality; on the input of C1
    the loop run for its 8 iterations returns quality 4, and the loop left
    at [lo > hi] returns the failure marker. *)
Theorem binary_search_quality_early_exit_differs :
  (forall q1 q2 : Z, q1 <= q2 ->
     len (bytes_of_save Demo.tile "JPEG" q1 ∅)
     <= len (bytes_of_save Demo.tile "JPEG" q2 ∅))
  /\ binary_search_quality Demo.tile "JPEG" 450 5 95 ∅ 8
     = Some (bytes_of_save Demo.tile "JPEG" 4 ∅, 4)
  /\ binary_search_quality_early_exit Demo.tile "JPEG" 450 5 95 ∅ 8 = None.
Proof.
  split; [|split; vm_compute; reflexivity].
  intros q1 q2 Hq. rewrite !demo_len_jpeg.
  change (width Demo.tile * height Demo.tile) with 100. lia.
Qed.

(** C6 (the code at a failing input).  An image of mode PA, Pillow's
    palette mode with an alpha band, whose one pixel is fully transparent,
    for a JPEG target: it has a band named "A", yet its mode is none of
    those the flattening branch tests, and [load_image] leaves it as it is;
    the normalizer returns [img.convert("RGB")] without pasting on white,
    and the transparent pixel is not white. *)
Theorem jpeg_palette_alpha_not_flattened :
  In "A" (getbands Demo.badge)
  /\ carries_alpha Demo.badge = false
  /\ load_image Demo.badge = Demo.badge
  /\ ensure_mode_for_format Demo.badge "JPEG" = convert Demo.badge "RGB"
  /\ data (ensure_mode_for_format Demo.badge "JPEG") = [[7; 7; 7]]
  /\ data (ensure_mode_for_format Demo.badge "JPEG") <> [[255; 255; 255]].
Proof.
  split; [vm_compute; tauto|]. repeat split; try reflexivity. discriminate.
Qed.

(** C8 (the code at a failing input).  With the writers of a stock Pillow,
    none of which is named "quality", [bytes_of_save] hands no quality to
    the TIFF writer, whatever the quality asked for. *)
Theorem save_call_tiff_drops_quality (quality : Z) :
  bool_decide ("quality" ∈ SAVE) = false
  /\ save_call "tiff" quality ∅ = ("TIFF", ∅).
Proof. split; vm_compute; reflexivity. Qed.


(** Other ways not to return: an option named like a parameter of a call,
    and a format the encoder has no writer for. *)
Example compress_to_target_raises :
  compress_to_target Demo.card 1 "JPEG" None 5 95 6 {[ "quality" := VInt 50 ]}
  = Raise TypeError
  /\ compress_to_target Demo.card 1 "JPEG" None 5 95 6 {[ "q_min" := VInt 1 ]}
     = Raise TypeError
  /\ compress_to_target Demo.card 1 "nosuchformat" None 5 95 6 ∅
     = Raise KeyError.
Proof. repeat split; vm_compute; reflexivity. Qed.


Lemma jpeg_flattens_alpha_on_white_witness :
  str_in (upper "jpg") ["JPEG"; "JPG"] = true
  /\ carries_alpha Demo.sticker = true
  /\ data (ensure_mode_for_format Demo.sticker "jpg") !! 0%nat
     = Some [255; 255; 255]
  /\ data (ensure_mode_for_format Demo.sticker "jpg") !! 1%nat
     = Some [10; 20; 30].
Proof.
  destruct (jpeg_flattens_alpha_on_white Demo.sticker "jpg" eq_refl eq_refl)
    as (_ & _ & _ & Hpx).
  split; [reflexivity|]. split; [reflexivity|]. split.
  - destruct (Hpx 0%nat 10 20 30 0 eq_refl) as (_ & Hclear & _);
      [simpl; lia|]. exact (Hclear eq_refl).
  - destruct (Hpx 1%nat 10 20 30 255 eq_refl) as (_ & _ & Hsolid);
      [simpl; lia|]. apply Hsolid; [reflexivity|lia..].
Defined.

Lemma scale_by_factor_shrinks_witness :
  (1 <= width (scale_by_factor Demo.tile (1 # 2)) <= 10
   /\ 1 <= height (scale_by_factor Demo.tile (1 # 2)) <= 10)
  /\ size (scale_by_factor (Demo.plain "RGB" 1 1 [0; 0; 0]) (1 # 2)) = (1, 1).
Proof.
  split.
  - apply (scale_by_factor_shrinks demo_float_laws Demo.tile (1 # 2));
      [reflexivity|reflexivity|]. repeat split; vm_compute; first [reflexivity|discriminate].
  - destruct (scale_by_factor_shrinks demo_float_laws
                (Demo.plain "RGB" 1 1 [0; 0; 0]) (1 # 2))
      as (_ & Hsame & _); [reflexivity|reflexivity| |].
    + repeat split; vm_compute; first [reflexivity|discriminate].
    + apply Hsame. reflexivity.
Defined.

Lemma binary_search_quality_range_witness :
  5 <= 95
  /\ binary_search_quality Demo.tile "JPEG" 450 5 95 ∅ 8
     = Some (bytes_of_save Demo.tile "JPEG" 4 ∅, 4)
  /\ 5 - 1 <= 4 <= 95.
Proof.
  split; [lia|]. split; [vm_compute; reflexivity|].
  apply (binary_search_quality_range Demo.tile "JPEG" 450 5 95 ∅ 8
           (bytes_of_save Demo.tile "JPEG" 4 ∅) 4); [lia|].
  vm_compute. reflexivity.
Defined.

Lemma binary_search_quality_early_exit_agrees_witness :
  binary_search_quality Demo.tile "JPEG" 650 5 95 ∅ 8
  = binary_search_quality_early_exit Demo.tile "JPEG" 650 5 95 ∅ 8.
Proof.
  apply binary_search_quality_early_exit_agrees; [lia|].
  left. vm_compute. discriminate.
Defined.

Lemma binary_search_quality_in_bounds_witness : 5 <= 6 <= 95.
Proof.
  apply (binary_search_quality_in_bounds Demo.tile "JPEG" 650 5 95 ∅)
    with (max_iters := 8) (data := bytes_of_save Demo.tile "JPEG" 6 ∅);
    [lia| |vm_compute; reflexivity].
  left. vm_compute. discriminate.
Defined.

End Runs.

(** * Further properties *)

(** ** Keyword defaults of the encoders *)

Section SaveDefaults.
Context `{Pillow}.

(** For the JPEG family the writer is "JPEG" (also for "JPG") and the
    keywords are the caller's, completed by [optimize], [quality] and
    [progressive]: an option the caller passes is never overwritten. *)
Theorem save_call_jpeg (fmt : string) (quality : Z)
    (save_kwargs : gmap string pyval) :
  str_in (upper fmt) ["JPEG"; "JPG"] = true ->
  save_call fmt quality save_kwargs
  = ("JPEG", save_kwargs ∪ jpeg_defaults quality).
Proof.
  intros Hfmt. unfold save_call. rewrite Hfmt. f_equal.
  apply map_eq. intros j. rewrite !lookup_setdefault, lookup_union.
  unfold jpeg_defaults. rewrite !lookup_insert, lookup_singleton.
  destruct (save_kwargs !! j); repeat case_decide; try reflexivity; congruence.
Qed.

(** For WEBP the keywords are the caller's, completed by [quality],
    [method = 6] and [lossless = False]. *)
Theorem save_call_webp (fmt : string) (quality : Z)
    (save_kwargs : gmap string pyval) :
  upper fmt = "WEBP" ->
  save_call fmt quality save_kwargs
  = ("WEBP", save_kwargs ∪ webp_defaults quality).
Proof.
  intros Hfmt. unfold save_call. rewrite Hfmt. cbn [str_in existsb String.eqb Ascii.eqb].
   f_equal.
  apply map_eq. intros j. rewrite !lookup_setdefault, lookup_union.
  unfold webp_defaults. rewrite !lookup_insert, lookup_singleton.
  destruct (save_kwargs !! j); repeat case_decide; try reflexivity; congruence.
Qed.

End SaveDefaults.

(** ** Modes after loading and normalizing *)

Section ModeProperties.
Context `{Pillow}.

(** The mode the encoder receives: RGB for the JPEG family, whatever the
    input; the input itself for WEBP; RGB or RGBA for any other format; and
    an image whose mode already suits the format is returned as it is. *)
Theorem ensure_mode_for_format_modes (img : Image) (fmt : string) :
  let out := ensure_mode_for_format img fmt in
  (str_in (upper fmt) ["JPEG"; "JPG"] = true -> mode out = "RGB")
  /\ (upper fmt = "WEBP" -> out = img)
  /\ (str_in (upper fmt) ["JPEG"; "JPG"; "WEBP"] = false ->
      mode out = "RGB" \/ mode out = "RGBA")
  /\ (normalized_for fmt img = true -> out = img).
Proof.
  intros out. pose proof (ensure_mode_for_format_normalized img fmt) as N.
  fold out in N. unfold normalized_for in N.
  split; [|split; [|split]].
  - intros E. rewrite E in N. now apply String.eqb_eq.
  - intros E. apply ensure_mode_for_format_fixed. unfold normalized_for.
    now rewrite E.
  - intros E. rewrite !str_in_cons in E.
    apply orb_false_iff in E as [E1 E]. apply orb_false_iff in E as [E2 E].
    apply orb_false_iff in E as [E3 _].
    rewrite !str_in_cons, E1, E2, E3 in N. simpl in N.
    rewrite orb_false_r in N. apply orb_prop in N as [N|N];
      apply String.eqb_eq in N; auto.
  - apply ensure_mode_for_format_fixed.
Qed.

(** For a format outside the JPEG family and WEBP, an image that is neither
    RGB nor RGBA becomes RGBA exactly when one of its bands is named "A":
    an LA image keeps its alpha, a LAB image (whose "A" is a colour axis)
    becomes RGBA, and an image with premultiplied alpha (RGBa, band "a")
    becomes RGB. *)
Theorem ensure_mode_for_format_alpha_by_band_name (img : Image) (fmt : string) :
  str_in (upper fmt) ["JPEG"; "JPG"; "WEBP"] = false ->
  str_in (mode img) ["RGB"; "RGBA"] = false ->
  let out := ensure_mode_for_format img fmt in
  (mode out = "RGBA" <-> In "A" (getbands img))
  /\ (mode out = "RGB" <-> ~ In "A" (getbands img))
  /\ (mode img = "LA" -> mode out = "RGBA")
  /\ (mode img = "LAB" -> mode out = "RGBA")
  /\ (mode img = "RGBa" -> mode out = "RGB").
Proof.
  intros E Hmode out. rewrite !str_in_cons in E.
  apply orb_false_iff in E as [E1 E]. apply orb_false_iff in E as [E2 E].
  apply orb_false_iff in E as [E3 _].
  assert (Eout : mode out = if str_in "A" (getbands img) then "RGBA" else "RGB").
  { assert (Hj : str_in (upper fmt) ["JPEG"; "JPG"] = false)
      by (rewrite !str_in_cons, E1, E2; reflexivity).
    unfold out, ensure_mode_for_format.
    rewrite Hj, E3, Hmode. simpl. apply mode_convert. }
  assert (Hin : str_in "A" (getbands img) = true <-> In "A" (getbands img))
    by apply str_in_true.
  assert (Hbands : forall m, mode img = m ->
            str_in "A" (getbands img)
            = str_in "A" (match assoc m MODES with Some b => b | None => [] end)).
  { intros m <-. reflexivity. }
  destruct (str_in "A" (getbands img)) eqn:EA; rewrite Eout.
  - assert (HA : In "A" (getbands img)) by now apply Hin.
    split; [split; [intros _; exact HA|reflexivity]|].
    split; [split; [discriminate|intros Hn; contradiction]|].
    split; [reflexivity|]. split; [reflexivity|].
    intros Em. apply Hbands in Em. discriminate.
  - assert (HA : ~ In "A" (getbands img)).
    { intros Hc. apply Hin in Hc. discriminate. }
    split; [split; [discriminate|intros Hc; contradiction]|].
    split; [split; [intros _; exact HA|reflexivity]|].
    split; [intros Em; apply Hbands in Em; discriminate|].
    split; [intros Em; apply Hbands in Em; discriminate|reflexivity].
Qed.

(** [load_image] never hands on a palette image: one in mode P is
    converted to RGBA, any other is returned as it is, and the size is
    kept.  After it the normalizer gives a palette image to the encoder as
    RGB for the JPEG family and as RGBA for every other format. *)
Theorem load_image_converts_palette (opened : Image) :
  mode (load_image opened) <> "P"
  /\ size (load_image opened) = size opened
  /\ (mode opened <> "P" -> load_image opened = opened)
  /\ load_image (load_image opened) = load_image opened
  /\ (mode opened = "P" ->
      forall fmt : string,
        mode (ensure_mode_for_format (load_image opened) fmt)
        = if str_in (upper fmt) ["JPEG"; "JPG"] then "RGB" else "RGBA").
Proof.
  assert (Hm : mode opened = "P" -> mode (load_image opened) = "RGBA").
  { intros E. unfold load_image. rewrite E. simpl. apply mode_convert. }
  assert (Hid : mode opened <> "P" -> load_image opened = opened).
  { intros E. unfold load_image.
    destruct (String.eqb_spec (mode opened) "P"); [contradiction|reflexivity]. }
  assert (Hn : mode (load_image opened) <> "P").
  { destruct (String.eqb_spec (mode opened) "P") as [E|E].
    - rewrite (Hm E). discriminate.
    - now rewrite (Hid E). }
  split; [exact Hn|]. split; [apply size_load_image|]. split; [exact Hid|].
  split.
  - unfold load_image at 1.
    destruct (String.eqb_spec (mode (load_image opened)) "P");
      [contradiction|reflexivity].
  - intros E fmt. specialize (Hm E).
    destruct (str_in (upper fmt) ["JPEG"; "JPG"]) eqn:Ej.
    + pose proof (ensure_mode_for_format_normalized (load_image opened) fmt) as N.
      unfold normalized_for in N. rewrite Ej in N. now apply String.eqb_eq.
    + rewrite ensure_mode_for_format_fixed; [exact Hm|].
      unfold normalized_for. rewrite Ej, Hm.
      now destruct (upper fmt =? "WEBP")%string.
Qed.

End ModeProperties.

(** ** Downscaling makes progress *)

Lemma py_int_le (x : Q) (w : Z) :
  (x <= inject_Z w)%Q -> 0 <= w -> py_int x <= w.
Proof.
  destruct x as [n d]. unfold Qle, py_int. simpl. intros Hx Hw.
  destruct (Z.le_gt_cases 0 n) as [Hn|Hn].
  - rewrite Z.quot_div_nonneg by lia. apply Z.div_le_upper_bound; lia.
  - replace n with (- - n) by lia. rewrite Z.quot_opp_l by lia.
    pose proof (Z.quot_pos (- n) (Z.pos d)). lia.
Qed.

Section ScaleProgress.
Context `{Pillow, Floats}.
Hypothesis laws : FloatLaws.

Lemma int_times_float_le (w : Z) (factor : Q) :
  (factor <= 1)%Q -> 0 <= w <= 2 ^ 53 ->
  py_int (int_times_float w factor) <= w.
Proof.
  intros Hf Hw. apply py_int_le; [|lia]. unfold int_times_float.
  apply Qle_trans with (rnd (inject_Z w)).
  - apply (rnd_mono laws). destruct factor as [n d].
    unfold Qle in *. simpl in *. nia.
  - apply Qle_lteq. right. apply (rnd_int laws). lia.
Qed.

Lemma scale_by_factor_dims (img : Image) (factor : Q) :
  (factor <= 1)%Q -> valid_size img ->
  (1 <= width (scale_by_factor img factor) <= width img
   /\ 1 <= height (scale_by_factor img factor) <= height img)
  /\ (size img <> (1, 1) ->
      width (scale_by_factor img factor) * height (scale_by_factor img factor)
      < width img * height img)
  /\ (size img = (1, 1) -> size (scale_by_factor img factor) = (1, 1)).
Proof.
  intros Hf [Hw Hh].
  pose proof (int_times_float_le (width img) factor Hf) as Bw.
  pose proof (int_times_float_le (height img) factor Hf) as Bh.
  unfold scale_by_factor, width, height in *.
  destruct (size img) as [w h]. simpl in *.
  set (new_w := Z.max 1 (py_int (int_times_float w factor))) in *.
  set (new_h := Z.max 1 (py_int (int_times_float h factor))) in *.
  assert (Hnw : 1 <= new_w <= w) by (unfold new_w; lia).
  assert (Hnh : 1 <= new_h <= h) by (unfold new_h; lia).
  destruct ((new_w =? w) && (new_h =? h)) eqn:E; simpl.
  - split; [lia|]. split.
    + intros Hne. assert (w <> 1 \/ h <> 1) as [|].
      { destruct (Z.eq_dec w 1), (Z.eq_dec h 1); subst; try tauto. }
      all: nia.
    + intros [= -> ->]. reflexivity.
  - split; [lia|].
    assert (Hlt : new_w < w \/ new_h < h).
    { apply andb_false_iff in E as [E|E]; apply Z.eqb_neq in E; lia. }
    split.
    + intros _. nia.
    + intros [= -> ->]. f_equal; lia.
Qed.


End ScaleProgress.

(** ** The backoff factor and the size of the result *)

Section BackoffProperties.
Context `{Pillow, Floats}.
Hypothesis laws : FloatLaws.

Lemma clamp_bounds (x low high : Q) :
  (low <= high)%Q ->
  (low <= fmax (fmin x high) low)%Q /\ (fmax (fmin x high) low <= high)%Q.
Proof.
  intros Hlh. unfold fmax, fmin.
  destruct (Qle_bool x high) eqn:E1.
  - apply Qle_bool_iff in E1.
    destruct (Qle_bool low x) eqn:E2.
    + apply Qle_bool_iff in E2. now split.
    + split; [apply Qle_refl|assumption].
  - destruct (Qle_bool low high) eqn:E2.
    + split; [assumption|apply Qle_refl].
    + split; [apply Qle_refl|assumption].
Qed.

Lemma backoff_factor_bounds (target_bytes current_bytes : Z) (factor : Q) :
  backoff_factor target_bytes current_bytes = Ok factor ->
  (rnd (1 # 2) <= factor)%Q /\ (factor <= rnd (95 # 100))%Q /\ (factor <= 1)%Q.
Proof.
  unfold backoff_factor. destruct (truediv target_bytes current_bytes) as [r| |];
    cbn [mbind result_bind]; try discriminate.
  destruct (math_sqrt r) as [s| |]; cbn [mbind result_bind]; try discriminate.
  intros [= <-].
  assert (Hlh : (rnd (1 # 2) <= rnd (95 # 100))%Q).
  { apply (rnd_mono laws). unfold Qle. simpl. lia. }
  destruct (clamp_bounds (fmul s (rnd (98 # 100))) _ _ Hlh) as [Hlo Hhi].
  split; [exact Hlo|]. split; [exact Hhi|].
  apply Qle_trans with (rnd (95 # 100)); [exact Hhi|].
  apply Qle_trans with (rnd (inject_Z 1)).
  - apply (rnd_mono laws). unfold Qle. simpl. lia.
  - apply Qle_lteq. right. apply (rnd_int laws). simpl. lia.
Qed.

(** Whenever the factor of a backoff pass is defined it lies between the
    floats 0.5 and 0.95, whatever the sizes: a pass never enlarges the image
    and never scales a dimension below half (rounded). *)
Theorem backoff_factor_clamped (target_bytes current_bytes : Z) (factor : Q) :
  backoff_factor target_bytes current_bytes = Ok factor ->
  (rnd (1 # 2) <= factor)%Q /\ (factor <= rnd (95 # 100))%Q /\ (factor <= 1)%Q.
Proof. apply backoff_factor_bounds. Qed.

Section Sizes.
Variables (fmt : string) (target_bytes : Z).
Variables (quality_min quality_max max_passes : Z).
Variable save_kwargs : gmap string pyval.
Variables (W H' : Z).
Hypothesis W_int : W < 2 ^ 31.
Hypothesis H_int : H' < 2 ^ 31.

Lemma backoff_loop_sizes (fuel : nat) (st : backoff_state) (out : outcome) (n : Z) :
  1 <= width (cur_img st) <= W ->
  1 <= height (cur_img st) <= H' ->
  backoff_loop fmt target_bytes quality_min quality_max max_passes
    save_kwargs fuel st = Ok (out, n) ->
  1 <= fst (final_size out) <= W
  /\ 1 <= snd (final_size out) <= H'
  /\ passes st <= n
  /\ (n = passes st -> final_size out = size (cur_img st)).
Proof.
  revert st. induction fuel as [|fuel IH]; intros st Hw Hh;
    cbn [backoff_loop];
    destruct ((current_bytes st >? target_bytes) && (passes st <? max_passes)).
  - discriminate.
  - intros [= <- <-]. cbn [final_size]. unfold width, height in *.
    repeat split; try lia.
  - destruct (backoff_factor target_bytes (current_bytes st)) as [factor| |] eqn:Ef;
      cbn [mbind result_bind]; try discriminate.
    apply backoff_factor_bounds in Ef as (_ & _ & Hf).
    destruct (scale_by_factor_dims laws (cur_img st) factor Hf) as ([Hsw Hsh] & _).
    { unfold valid_size. lia. }
    set (cur := scale_by_factor (cur_img st) factor) in *.
    destruct (call_binary_search_quality cur fmt target_bytes quality_min
                quality_max save_kwargs) as [[[d q]|]| |];
      cbn [mbind result_bind]; try discriminate.
    + intros [= <- <-]. cbn [final_size]. unfold width, height in *.
      repeat split; try lia.
    + destruct (bytes_of_save_run cur fmt quality_min save_kwargs)
        as [low| |]; cbn [mbind result_bind]; try discriminate.
      intros Hrun. apply IH in Hrun; cbn [passes cur_img] in *; lia.
  - intros [= <- <-]. cbn [final_size]. unfold width, height in *.
    repeat split; try lia.
Qed.

End Sizes.

(** The compressed image is never larger than the one opened, each way, and
    never below one pixel; without [max_width], when no backoff pass ran the
    size is that of the input. *)
Theorem compress_to_target_never_upscales (opened : Image) (target_kb : Z)
    (fmt : string) (max_width : option Z)
    (quality_min quality_max max_passes : Z)
    (save_kwargs : gmap string pyval) (out : outcome) (n : Z) :
  valid_size opened ->
  compress_to_target_passes opened target_kb fmt max_width
    quality_min quality_max max_passes save_kwargs = Ok (out, n) ->
  1 <= fst (final_size out) <= width opened
  /\ 1 <= snd (final_size out) <= height opened
  /\ (max_width = None -> n = 0 -> final_size out = size opened).
Proof.
  intros [Vw Vh]. unfold compress_to_target_passes.
  set (img0 := ensure_mode_for_format (load_image opened) (upper fmt)).
  assert (E0 : size img0 = size opened).
  { unfold img0. now rewrite size_ensure_mode_for_format, size_load_image. }
  assert (Hpre : forall img1,
    match max_width with
    | Some max_width =>
        if width img0 >? max_width
        then factor ← truediv max_width (width img0);
             Ok (scale_by_factor img0 factor)
        else Ok img0
    | None => Ok img0
    end = Ok img1 ->
    (1 <= width img1 <= width opened /\ 1 <= height img1 <= height opened)
    /\ (max_width = None -> size img1 = size opened)).
  { intros img1. unfold width, height in *. rewrite <- E0 in *.
    destruct max_width as [mw|].
    - destruct (Z.gtb_spec (fst (size img0)) mw) as [Hgt|Hle].
      + unfold truediv. destruct (fst (size img0) =? 0); cbn [mbind result_bind];
          [discriminate|].
        intros [= <-].
        destruct (scale_by_factor_dims laws img0
                    (rnd (inject_Z mw / inject_Z (fst (size img0))))) as ([Hsw Hsh] & _).
        * apply Qle_trans with (rnd (inject_Z 1)).
          -- apply (rnd_mono laws). apply Qle_shift_div_r.
             ++ unfold Qlt. simpl. lia.
             ++ rewrite Qmult_1_l. unfold Qle. simpl. lia.
          -- apply Qle_lteq. right. apply (rnd_int laws). simpl. lia.
        * unfold valid_size, width, height. lia.
        * unfold width, height in *. split; [lia|discriminate].
      + intros [= <-]. split; [lia|discriminate].
    - intros [= <-]. split; [lia|reflexivity]. }
  destruct (match max_width with Some _ => _ | None => _ end) as [img1| |];
    cbn [mbind result_bind]; try discriminate.
  destruct (Hpre img1 eq_refl) as ([Hw1 Hh1] & Hsame).
  destruct (call_binary_search_quality img1 (upper fmt) (target_kb * 1024)
              quality_min quality_max save_kwargs)
    as [[[d q]|]| |]; cbn [mbind result_bind]; try discriminate.
  - intros [= <- <-]. cbn [final_size]. unfold width, height in *.
    repeat split; try lia. intros Hn _. now apply Hsame.
  - destruct (bytes_of_save_run img1 (upper fmt) quality_min save_kwargs)
      as [low| |]; cbn [mbind result_bind]; try discriminate.
    intros Hrun.
    apply (backoff_loop_sizes _ _ _ _ _ _ (width opened) (height opened)) in Hrun;
      cbn [passes cur_img] in *; try lia.
    destruct Hrun as (H1 & H2 & _ & H4). repeat split; try lia.
    intros Hn ->. rewrite H4 by reflexivity. now apply Hsame.
Qed.

End BackoffProperties.

(** ** What the quality search finds *)

Section SearchOptimality.
Context `{Pillow}.
Variables (img : Image) (fmt : string) (target_bytes : Z).
Variables (q_min q_max : Z) (save_kwargs : gmap string pyval).

Local Abbreviation enc := (fun q => bytes_of_save img fmt q save_kwargs).
Local Abbreviation fits :=
  (fun q => len (bytes_of_save img fmt q save_kwargs) <= target_bytes).
Local Abbreviation step := (search_step img fmt target_bytes save_kwargs).
Local Abbreviation loop := (search_loop img fmt target_bytes save_kwargs).
Local Abbreviation init := (search_init q_min q_max).
Local Abbreviation settled :=
  (settled img fmt target_bytes q_min q_max save_kwargs).

Lemma probed_step (s : search_state) :
  probed (step s) = (lo s + hi s) / 2 :: probed s.
Proof. unfold search_step. now destruct (_ <=? _). Qed.

Lemma probed_length (n : nat) (s : search_state) :
  length (probed (loop n s)) = (n + length (probed s))%nat.
Proof.
  revert s. induction n as [|n IH]; intros s; simpl; [reflexivity|].
  rewrite IH, probed_step. simpl. lia.
Qed.

Lemma probed_range (n : nat) (s : search_state) :
  bounded q_min q_max s ->
  Forall (fun q => q_min - 1 <= q <= q_max) (probed s) ->
  Forall (fun q => q_min - 1 <= q <= q_max) (probed (loop n s)).
Proof.
  revert s. induction n as [|n IH]; intros s Hb Hp; simpl; [assumption|].
  apply IH; [now apply bounded_step|].
  rewrite probed_step. constructor; [|assumption].
  destruct Hb as (Hlo & Hhi & Hgap & _).
  pose proof (mid_bounds (lo s) (hi s)). lia.
Qed.

Hypothesis valid_bounds : q_min <= q_max.

(** The loop encodes exactly once per iteration, [max_iters] times in all
    (it never stops early), and with bounds in order every quality it
    encodes lies between [q_min - 1] and [q_max]. *)
Theorem search_probes_count_and_range (max_iters : Z) :
  length (search_probes img fmt target_bytes q_min q_max save_kwargs max_iters)
  = Z.to_nat max_iters
  /\ Forall (fun q => q_min - 1 <= q <= q_max)
       (search_probes img fmt target_bytes q_min q_max save_kwargs max_iters).
Proof.
  unfold search_probes. split.
  - rewrite length_rev, probed_length. simpl. lia.
  - apply Forall_rev, probed_range; [|constructor].
    unfold bounded. cbn [best lo hi search_init].
    refine (conj _ (conj _ (conj _ _))); try lia. discriminate.
Qed.

Hypothesis floor_fits : fits q_min.

(** While the window [lo..hi] is open each iteration halves it; once it is
    empty the record is the quality just below [lo], and the one above it
    does not fit. *)
Lemma narrowing (n : nat) (s : search_state) :
  settled s ->
  (hi s = q_max \/ ~ fits (hi s + 1)) ->
  lo s <= hi s + 1 ->
  hi s - lo s + 1 < 2 ^ Z.of_nat n ->
  exists q,
    best (loop n s) = Some (enc q, q)
    /\ q_min <= q <= q_max /\ fits q /\ (q = q_max \/ ~ fits (q + 1)).
Proof.
  assert (Hclosed : forall m s, settled s ->
            (hi s = q_max \/ ~ fits (hi s + 1)) ->
            lo s = hi s + 1 ->
            exists q,
              best (loop m s) = Some (enc q, q)
              /\ q_min <= q <= q_max /\ fits q /\ (q = q_max \/ ~ fits (q + 1))).
  { intros m s' Hs Hceil Hx.
    rewrite (crossed_loop img fmt target_bytes q_min q_max save_kwargs
               valid_bounds (or_introl floor_fits) m s' Hs) by lia.
    destruct Hs as (Hlo & _ & Hhi & _ & [(_ & Elo & Hmin)|(Eb & Hfit & Hlt)]).
    - exfalso. apply Hmin; [lia|exact floor_fits].
    - exists (lo s' - 1). split; [exact Eb|]. split; [lia|].
      split; [exact Hfit|].
      replace (lo s' - 1) with (hi s') by lia. exact Hceil. }
  revert s. induction n as [|n IH]; intros s Hs Hceil Hgap Hw.
  - apply Hclosed; try assumption. simpl in Hw. lia.
  - destruct (Z.eq_dec (lo s) (hi s + 1)) as [Hx|Hopen];
      [now apply Hclosed|].
    change (loop (S n) s) with (loop n (step s)).
    pose proof (settled_step img fmt target_bytes q_min q_max save_kwargs
                  valid_bounds (or_introl floor_fits) s Hs) as Hs'.
    pose proof (mid_bounds (lo s) (hi s)) as Hmid.
    rewrite Nat2Z.inj_succ, Z.pow_succ_r in Hw by lia.
    apply IH; [exact Hs'|..]; unfold search_step; cbv zeta;
      destruct (Z.leb_spec (len (enc ((lo s + hi s) / 2))) target_bytes)
        as [Hfit|Hfit]; cbn [lo hi]; try lia.
    right. replace ((lo s + hi s) / 2 - 1 + 1) with ((lo s + hi s) / 2) by lia.
    lia.
Qed.

(** With bounds in order, an encoding at [q_min] that fits and enough
    iterations to halve the range away (8 are enough for up to 255
    qualities), the search returns the encoding at a quality within the
    bounds that fits and whose successor, if within the bounds, does not;
    for an encoder whose output does not shrink as the quality grows this is
    the highest quality within the bounds that fits. *)
Theorem binary_search_quality_finds_highest (max_iters : Z) :
  q_max - q_min + 1 < 2 ^ max_iters ->
  exists q,
    binary_search_quality img fmt target_bytes q_min q_max save_kwargs max_iters
    = Some (bytes_of_save img fmt q save_kwargs, q)
    /\ q_min <= q <= q_max
    /\ len (bytes_of_save img fmt q save_kwargs) <= target_bytes
    /\ (q = q_max
        \/ target_bytes < len (bytes_of_save img fmt (q + 1) save_kwargs))
    /\ ((forall q1 q2, q1 <= q2 ->
           len (bytes_of_save img fmt q1 save_kwargs)
           <= len (bytes_of_save img fmt q2 save_kwargs)) ->
        forall q', q' <= q_max ->
          len (bytes_of_save img fmt q' save_kwargs) <= target_bytes ->
          q' <= q).
Proof.
  intros Hiters.
  assert (0 <= max_iters).
  { destruct (Z.le_gt_cases 0 max_iters) as [|Hneg]; [assumption|].
    rewrite Z.pow_neg_r in Hiters by lia. lia. }
  destruct (narrowing (Z.to_nat max_iters) init) as (q & Eb & Hq & Hfit & Hup).
  - apply settled_init, valid_bounds.
  - now left.
  - cbn [lo hi search_init]. lia.
  - cbn [lo hi search_init]. rewrite Z2Nat.id by lia. exact Hiters.
  - exists q. unfold binary_search_quality, search_finish. rewrite Eb.
    split; [reflexivity|]. split; [exact Hq|]. split; [exact Hfit|]. split.
    + destruct Hup as [|Hup]; [now left|right; lia].
    + intros Hmono q' Hq' Hfit'.
      destruct Hup as [->|Hup]; [exact Hq'|].
      destruct (Z.le_gt_cases q' q) as [|Hgt]; [assumption|]. exfalso.
      apply Hup. specialize (Hmono (q + 1) q'). lia.
Qed.

End SearchOptimality.

(** ** The reported quality *)

Section ReportedQuality.
Context `{Pillow, Floats}.
Variables (quality_min quality_max : Z).
Hypothesis valid_bounds : quality_min <= quality_max.

Lemma search_quality_range (img : Image) (fmt : string) (target_bytes : Z)
    (save_kwargs : gmap string pyval) (max_iters : Z) (d : list byte) (q : Z) :
  binary_search_quality img fmt target_bytes quality_min quality_max
    save_kwargs max_iters = Some (d, q) ->
  quality_min - 1 <= q <= quality_max.
Proof.
  unfold binary_search_quality, search_finish.
  assert (B : bounded quality_min quality_max
                (search_loop img fmt target_bytes save_kwargs
                   (Z.to_nat max_iters) (search_init quality_min quality_max))).
  { apply search_loop_invariant; [apply bounded_step|].
    unfold bounded. cbn [best lo hi search_init].
    refine (conj _ (conj _ (conj _ _))); try lia. discriminate. }
  destruct B as (_ & _ & _ & Hbest).
  destruct (best _) as [[d' q']|] eqn:E.
  - intros [= <- <-]. now apply (Hbest d').
  - destruct (_ <=? _); [|discriminate]. intros [= <- <-]. lia.
Qed.

Lemma backoff_loop_quality (fmt : string) (target_bytes max_passes : Z)
    (save_kwargs : gmap string pyval) (fuel : nat) (st : backoff_state)
    (out : outcome) (n : Z) :
  backoff_loop fmt target_bytes quality_min quality_max max_passes
    save_kwargs fuel st = Ok (out, n) ->
  quality_min - 1 <= quality_used out <= quality_max.
Proof.
  revert st. induction fuel as [|fuel IH]; intros st; cbn [backoff_loop];
    destruct ((current_bytes st >? target_bytes) && (passes st <? max_passes)).
  - discriminate.
  - intros [= <- <-]. cbn [quality_used]. lia.
  - destruct (backoff_factor target_bytes (current_bytes st)) as [factor| |];
      cbn [mbind result_bind]; try discriminate.
    destruct (call_binary_search_quality _ fmt target_bytes quality_min
                quality_max save_kwargs) as [[[d q]|]| |] eqn:E;
      cbn [mbind result_bind]; try discriminate.
    + intros [= <- <-]. cbn [quality_used].
      apply call_binary_search_quality_Ok in E as [iters E].
      symmetry in E. now apply search_quality_range in E.
    + destruct (bytes_of_save_run _ fmt quality_min save_kwargs)
        as [low| |]; cbn [mbind result_bind]; try discriminate.
      apply IH.
  - intros [= <- <-]. cbn [quality_used]. lia.
Qed.

(** With bounds in order the quality [compress_to_target] reports is at
    most [quality_max] and at least [quality_min - 1]. *)
Theorem compress_to_target_quality_range (opened : Image) (target_kb : Z)
    (fmt : string) (max_width : option Z) (max_passes : Z)
    (save_kwargs : gmap string pyval) (out : outcome) :
  compress_to_target opened target_kb fmt max_width
    quality_min quality_max max_passes save_kwargs = Ok out ->
  quality_min - 1 <= quality_used out <= quality_max.
Proof.
  unfold compress_to_target, compress_to_target_passes.
  destruct (match max_width with Some _ => _ | None => _ end) as [img1| |];
    cbn [mbind result_bind]; try discriminate.
  destruct (call_binary_search_quality img1 (upper fmt) (target_kb * 1024)
              quality_min quality_max save_kwargs)
    as [[[d q]|]| |] eqn:E; cbn [mbind result_bind]; try discriminate.
  - intros [= <-]. cbn [quality_used].
    apply call_binary_search_quality_Ok in E as [iters E].
    symmetry in E. now apply search_quality_range in E.
  - destruct (bytes_of_save_run img1 (upper fmt) quality_min save_kwargs)
      as [low| |]; cbn [mbind result_bind]; try discriminate.
    destruct (backoff_loop _ _ _ _ _ _ _ _) as [[o n]| |] eqn:El;
      try discriminate.
    intros [= <-]. now apply backoff_loop_quality in El.
Qed.

End ReportedQuality.

(** ** What a returned tuple holds *)

Section ReturnedResult.
Context `{Pillow, Floats}.
Variables (fmt : string) (target_bytes : Z).
Variables (quality_min quality_max max_passes : Z).
Variable save_kwargs : gmap string pyval.

Lemma backoff_loop_result (fuel : nat) (st : backoff_state)
    (out : outcome) (n : Z) :
  0 <= passes st <= Z.max 0 max_passes ->
  current_bytes st = len (data_low st) ->
  data_low st = bytes_of_save (cur_img st) fmt quality_min save_kwargs ->
  backoff_loop fmt target_bytes quality_min quality_max max_passes
    save_kwargs fuel st = Ok (out, n) ->
  passes st <= n <= Z.max 0 max_passes
  /\ exists cur,
       result_of fmt target_bytes quality_min max_passes save_kwargs cur out n.
Proof.
  revert st. induction fuel as [|fuel IH]; intros st Hp Hlen Hlow;
    cbn [backoff_loop];
    destruct (Z.gtb_spec (current_bytes st) target_bytes) as [Hover|Hfit];
    destruct (Z.ltb_spec (passes st) max_passes) as [Hmore|Hdone];
    cbn [andb]; try discriminate.
  1-3,5-7: intros [= <- <-]; (split; [lia|]); exists (cur_img st);
    unfold result_of; cbn [final_size size_kb written quality_used];
    (split; [reflexivity|]); (split; [reflexivity|]); right;
    (split; [exact Hlow|]); (split; [reflexivity|]); lia.
  destruct (backoff_factor target_bytes (current_bytes st)) as [factor| |];
    cbn [mbind result_bind]; try discriminate.
  destruct (call_binary_search_quality _ fmt target_bytes quality_min
              quality_max save_kwargs) as [[[d q]|]| |] eqn:E;
    cbn [mbind result_bind]; try discriminate.
  - intros [= <- <-]. split; [lia|].
    exists (scale_by_factor (cur_img st) factor).
    apply call_binary_search_quality_Ok in E as [iters E]. symmetry in E.
    apply binary_search_quality_Some in E as [Hd Hfit].
    unfold result_of; cbn [final_size size_kb written quality_used].
    split; [reflexivity|]. split; [reflexivity|]. left. now split.
  - destruct (bytes_of_save_run _ fmt quality_min save_kwargs)
      as [low| |] eqn:Elow; cbn [mbind result_bind]; try discriminate.
    apply bytes_of_save_run_Ok in Elow. intros Hrun.
    apply IH in Hrun; cbn [passes current_bytes data_low cur_img];
      [|lia|reflexivity|exact Elow].
    cbn [passes] in Hrun. destruct Hrun as [Hn Hres]. split; [lia|exact Hres].
Qed.

End ReturnedResult.

Section ReturnedTuple.
Context `{Pillow, Floats}.

(** Whenever [compress_to_target] returns, the backoff loop ran at most
    [max_passes] times, the reported size is the length of the written
    bytes in whole kilobytes, and the bytes are the encoding of an image of
    the reported dimensions: either at the reported quality and within the
    budget, or at [quality_min] after the last pass (or with an encoding
    that fits once the options are passed on in full). *)
Theorem compress_to_target_result (opened : Image) (target_kb : Z)
    (fmt : string) (max_width : option Z)
    (quality_min quality_max max_passes : Z)
    (save_kwargs : gmap string pyval) (out : outcome) (n : Z) :
  compress_to_target_passes opened target_kb fmt max_width
    quality_min quality_max max_passes save_kwargs = Ok (out, n) ->
  compress_to_target opened target_kb fmt max_width
    quality_min quality_max max_passes save_kwargs = Ok out
  /\ 0 <= n <= Z.max 0 max_passes
  /\ exists cur,
       result_of (upper fmt) (target_kb * 1024) quality_min max_passes
         save_kwargs cur out n.
Proof.
  intros Hrun. split; [unfold compress_to_target; now rewrite Hrun|].
  revert Hrun. unfold compress_to_target_passes.
  destruct (match max_width with Some _ => _ | None => _ end) as [img1| |];
    cbn [mbind result_bind]; try discriminate.
  destruct (call_binary_search_quality img1 (upper fmt) (target_kb * 1024)
              quality_min quality_max save_kwargs)
    as [[[d q]|]| |] eqn:E; cbn [mbind result_bind]; try discriminate.
  - intros [= <- <-]. split; [lia|]. exists img1.
    apply call_binary_search_quality_Ok in E as [iters E]. symmetry in E.
    apply binary_search_quality_Some in E as [Hd Hfit].
    unfold result_of; cbn [final_size size_kb written quality_used].
    split; [reflexivity|]. split; [reflexivity|]. left. now split.
  - destruct (bytes_of_save_run img1 (upper fmt) quality_min save_kwargs)
      as [low| |] eqn:Elow; cbn [mbind result_bind]; try discriminate.
    apply bytes_of_save_run_Ok in Elow. intros Hrun.
    apply backoff_loop_result in Hrun;
      cbn [passes current_bytes data_low cur_img];
      [|lia|reflexivity|exact Elow].
    cbn [passes] in Hrun. exact Hrun.
Qed.

End ReturnedTuple.

(** ** Concrete runs of the further properties *)

Section MoreRuns.
#[local] Existing Instance Demo.pillow.
#[local] Existing Instance Demo.floats.

Lemma save_call_jpeg_witness :
  save_call "jpg" 80 {[ "quality" := VInt 10 ]}
  = ("JPEG", {[ "quality" := VInt 10 ]} ∪ jpeg_defaults 80)
  /\ snd (save_call "jpg" 80 {[ "quality" := VInt 10 ]}) !! "quality"
     = Some (VInt 10).
Proof.
  assert (E := save_call_jpeg "jpg" 80 {[ "quality" := VInt 10 ]} eq_refl).
  split; [exact E|]. rewrite E. vm_compute. reflexivity.
Defined.

Lemma save_call_webp_witness :
  save_call "webp" 80 {[ "lossless" := VBool true ]}
  = ("WEBP", {[ "lossless" := VBool true ]} ∪ webp_defaults 80).
Proof. apply save_call_webp. reflexivity. Defined.

Lemma ensure_mode_for_format_alpha_by_band_name_witness :
  mode (ensure_mode_for_format (Demo.plain "LAB" 2 2 [50; 128; 128]) "png")
  = "RGBA".
Proof.
  destruct (ensure_mode_for_format_alpha_by_band_name
              (Demo.plain "LAB" 2 2 [50; 128; 128]) "png" eq_refl eq_refl)
    as (_ & _ & _ & Hlab & _).
  apply Hlab. reflexivity.
Defined.


Lemma backoff_factor_clamped_witness :
  (rnd (1 # 2) <= 1 # 2)%Q /\ (1 # 2 <= rnd (95 # 100))%Q /\ (1 # 2 <= 1)%Q.
Proof.
  apply (backoff_factor_clamped demo_float_laws 1024 4000 (1 # 2)).
  vm_compute. reflexivity.
Defined.

Lemma compress_to_target_never_upscales_witness :
  exists out n,
    compress_to_target_passes Demo.poster 1 "JPEG" (Some 30) 5 95 6 ∅
    = Ok (out, n)
    /\ final_size out = (15, 15)
    /\ 1 <= fst (final_size out) <= width Demo.poster
    /\ 1 <= snd (final_size out) <= height Demo.poster
    /\ (Some 30 = None -> n = 0 -> final_size out = size Demo.poster).
Proof.
  eexists. eexists. split; [vm_compute; reflexivity|].
  split; [reflexivity|].
  apply (compress_to_target_never_upscales demo_float_laws Demo.poster 1
           "JPEG" (Some 30) 5 95 6 ∅).
  - repeat split; vm_compute; first [reflexivity|discriminate].
  - vm_compute. reflexivity.
Defined.

Lemma search_probes_count_and_range_witness :
  length (search_probes Demo.tile "JPEG" 450 5 95 ∅ 8) = Z.to_nat 8
  /\ Forall (fun q => 5 - 1 <= q <= 95)
       (search_probes Demo.tile "JPEG" 450 5 95 ∅ 8).
Proof. apply search_probes_count_and_range. lia. Defined.

Lemma binary_search_quality_finds_highest_witness :
  exists q,
    binary_search_quality Demo.tile "JPEG" 650 5 95 ∅ 8
    = Some (bytes_of_save Demo.tile "JPEG" q ∅, q)
    /\ 5 <= q <= 95
    /\ len (bytes_of_save Demo.tile "JPEG" q ∅) <= 650
    /\ (q = 95 \/ 650 < len (bytes_of_save Demo.tile "JPEG" (q + 1) ∅))
    /\ ((forall q1 q2, q1 <= q2 ->
           len (bytes_of_save Demo.tile "JPEG" q1 ∅)
           <= len (bytes_of_save Demo.tile "JPEG" q2 ∅)) ->
        forall q', q' <= 95 ->
          len (bytes_of_save Demo.tile "JPEG" q' ∅) <= 650 -> q' <= q).
Proof.
  apply binary_search_quality_finds_highest.
  - lia.
  - vm_compute. discriminate.
  - reflexivity.
Defined.

Lemma compress_to_target_quality_range_witness :
  exists out,
    compress_to_target Demo.card 1 "JPEG" None 5 95 6 ∅ = Ok out
    /\ quality_used out = 4
    /\ 5 - 1 <= quality_used out <= 95.
Proof.
  eexists. split; [vm_compute; reflexivity|]. split; [reflexivity|].
  apply (compress_to_target_quality_range 5 95 ltac:(lia) Demo.card 1 "JPEG"
           None 6 ∅).
  vm_compute. reflexivity.
Defined.

Lemma bytes_of_save_ignores_quality_witness :
  save_call "png" 80 ∅ = ("PNG", ∅)
  /\ bytes_of_save Demo.tile "png" 80 ∅ = bytes_of_save Demo.tile "png" 5 ∅.
Proof.
  destruct (bytes_of_save_ignores_quality Demo.tile "png" 80 5 ∅)
    as (Hcall & Hbytes & _); [|reflexivity|discriminate|now split].
  intros k Hk. cbn [SAVE Demo.pillow] in Hk. unfold Demo.registry in Hk.
  repeat (apply elem_of_union in Hk as [Hk|Hk]);
    apply elem_of_singleton in Hk; subst k; reflexivity.
Defined.

Lemma compress_to_target_result_witness :
  exists out n,
    compress_to_target_passes Demo.card 1 "jpeg" None 5 95 6 ∅ = Ok (out, n)
    /\ compress_to_target Demo.card 1 "jpeg" None 5 95 6 ∅ = Ok out
    /\ 0 <= n <= Z.max 0 6
    /\ exists cur, result_of "JPEG" (1 * 1024) 5 6 ∅ cur out n.
Proof.
  eexists. eexists. split; [vm_compute; reflexivity|].
  apply (compress_to_target_result Demo.card 1 "jpeg" None 5 95 6 ∅).
  vm_compute. reflexivity.
Defined.

End MoreRuns.
